(** * Bounding boxes for GeoArrow multipolygon columns

    A shallow embedding of [scripts/add_bbox_to_arrow.py]: the per-row
    bounding-box computation [compute_bbox_from_geoarrow_polygon] and its
    caller [add_bbox_columns], together with the properties the
    specification states about them.

    Python floats and numpy [float64] cells are IEEE 754 binary64 values.
    They are modelled by the standard library's [spec_float], which keeps
    the two infinities, the two signed zeros and NaN apart; comparison is
    [SFcompare], the comparison the interpreter performs for [<] and [>].
    Exceptions are modelled by an error monad; progress messages written
    to standard output are not modelled. *)

From Stdlib Require Import ZArith Floats.SpecFloat.
From stdpp Require Import gmap strings list fin_maps.


(** ** Floating-point values *)

Module F64.

Abbreviation t := spec_float.

Definition nan : t := S754_nan.
Definition inf : t := S754_infinity false.
Definition neg_inf : t := S754_infinity true.
Definition pos_zero : t := S754_zero false.
Definition neg_zero : t := S754_zero true.

(** The binary64 value of a small non-negative integer literal. *)
Definition of_nat (n : nat) : t :=
  match Z.of_nat n with
  | Zpos p => binary_normalize 53 1024 (Zpos p) 0 false
  | _ => pos_zero
  end.

(** [a < b], [a > b], [a <= b] and [a == b] on floats. *)
Definition ltb (a b : t) : bool := SFltb a b.
Definition gtb (a b : t) : bool :=
  match SFcompare a b with Some Gt => true | _ => false end.
Definition leb (a b : t) : bool := SFleb a b.
Definition eqb (a b : t) : bool := SFeqb a b.

Definition is_nan (a : t) : bool :=
  match a with S754_nan => true | _ => false end.
Definition is_inf (a : t) : bool :=
  match a with S754_infinity _ => true | _ => false end.
Definition is_zero (a : t) : bool :=
  match a with S754_zero _ => true | _ => false end.

(** Membership in binary64 (53 bits of precision, exponents below 1024). *)
Definition is_binary64 (a : t) : bool := valid_binary 53 1024 a.

End F64.

(** ** Exceptions and the builtins the script relies on *)

Module Py.

Inductive exn : Type :=
| KeyError (key : string)
| IndexError
| ValueError
| TypeError
| OSError (path : string)
| ArrowInvalid.

Inductive result (A : Type) : Type :=
| Ok (a : A)
| Raise (e : exn).
Arguments Ok {A} a.
Arguments Raise {A} e.

Definition bind {A B} (m : result A) (k : A → result B) : result B :=
  match m with
  | Ok a => k a
  | Raise e => Raise e
  end.

(** [for x in xs: s = body(s, x)], stopping at the first exception. *)
Fixpoint for_each {S A} (body : S → A → result S) (xs : list A) (s : S)
  : result S :=
  match xs with
  | [] => Ok s
  | x :: rest => bind (body s x) (for_each body rest)
  end.

(** [d[key]] on a dict. *)
Definition getitem {V} (d : gmap string V) (key : string) : result V :=
  match d !! key with
  | Some v => Ok v
  | None => Raise (KeyError key)
  end.

(** [a[i] = v] on a numpy array: in place, bounds checked. *)
Definition setitem {A} (a : list A) (i : nat) (v : A) : result (list A) :=
  if decide (i < length a) then Ok (<[i:=v]> a) else Raise IndexError.

(** [min(xs)]: the first element, replaced by each later item that
    compares [<] to the best so far. An empty argument raises. *)
Definition min_step (best item : F64.t) : F64.t :=
  if F64.ltb item best then item else best.
Definition min (xs : list F64.t) : result F64.t :=
  match xs with
  | [] => Raise ValueError
  | x :: rest => Ok (foldl min_step x rest)
  end.

(** [max(xs)]: likewise with [>]. *)
Definition max_step (best item : F64.t) : F64.t :=
  if F64.gtb item best then item else best.
Definition max (xs : list F64.t) : result F64.t :=
  match xs with
  | [] => Raise ValueError
  | x :: rest => Ok (foldl max_step x rest)
  end.

(** Truth value of a list: non-empty. *)
Definition truthy {A} (xs : list A) : bool :=
  match xs with [] => false | _ => true end.

End Py.

Export Py (result, Ok, Raise, KeyError, IndexError, ValueError, TypeError,
           OSError, ArrowInvalid).

#[export] Instance result_bind : MBind Py.result := λ A B k m, Py.bind m k.
#[export] Instance result_ret : MRet Py.result := λ A a, Ok a.

(** ** The geometry column, as [as_py()] decodes it

    [list<polygons: list<rings: list<vertices: struct<x, y>>>>], where a
    row, a polygon, a ring and a vertex may each be [None]. A vertex
    that is present decodes to a dict from field names to coordinates;
    the coordinates themselves are taken to be floats, never [None]. *)

Abbreviation Vertex := (gmap string F64.t).
Abbreviation Ring := (list (option Vertex)).
Abbreviation Polygon := (list (option Ring)).
Abbreviation MultiPolygon := (list (option Polygon)).
Abbreviation Cell := (option MultiPolygon).

(** ** Arrow tables and the files that hold them *)

Module Arrow.

(** The columns the script meets: the nested geometry column and
    [float64] columns such as the ones it appends. *)
Inductive Column : Type :=
| GeometryCol (cells : list Cell)
| Float64Col (vals : list F64.t).

(** What [col[i].as_py()] evaluates to. *)
Inductive PyObj : Type :=
| PyNone
| PyList (polygon : MultiPolygon)
| PyFloat (f : F64.t).

Definition len (col : Column) : nat :=
  match col with
  | GeometryCol cells => length cells
  | Float64Col vals => length vals
  end.

Definition as_py (col : Column) (i : nat) : result PyObj :=
  match col with
  | GeometryCol cells =>
      match cells !! i with
      | Some (Some polygon) => Ok (PyList polygon)
      | Some None => Ok PyNone
      | None => Raise IndexError
      end
  | Float64Col vals =>
      match vals !! i with
      | Some f => Ok (PyFloat f)
      | None => Raise IndexError
      end
  end.

(** A table: its row count and its named columns, in schema order.
    Field names need not be distinct. *)
Record Table : Type := mkTable {
  num_rows : nat;
  columns : list (string * Column)
}.

Definition column_names (t : Table) : list string := (columns t).*1.

(** [table.column(name)]: the name must denote exactly one field. *)
Definition column (t : Table) (name : string) : result Column :=
  match filter (λ nc, nc.1 = name) (columns t) with
  | [nc] => Ok nc.2
  | _ => Raise (KeyError name)
  end.

(** [table.append_column(name, array)]: a new table with the field
    added last; the array must have one value per row. *)
Definition append_column (t : Table) (name : string) (vals : list F64.t)
  : result Table :=
  if decide (length vals = num_rows t)
  then Ok (mkTable (num_rows t) (columns t ++ [(name, Float64Col vals)]))
  else Raise ArrowInvalid.

(** The Arrow IPC files on disk, by path. *)
Abbreviation Files := (gmap string Table).

(** Code that reads and writes files: from the files before to the
    files after, with a value or an exception. *)
Definition IO (A : Type) : Type := Files → Files * result A.

Definition ret {A} (a : A) : IO A := λ fs, (fs, Ok a).

Definition bind {A B} (m : IO A) (k : A → IO B) : IO B :=
  λ fs, match m fs with
        | (fs', Ok a) => k a fs'
        | (fs', Raise e) => (fs', Raise e)
        end.

(** A computation that touches no file. *)
Definition lift {A} (r : result A) : IO A := λ fs, (fs, r).

(** [ipc.open_file(pa.memory_map(path, 'r')).read_all()]. *)
Definition read_all (path : string) : IO Table :=
  λ fs, match fs !! path with
        | Some t => (fs, Ok t)
        | None => (fs, Raise (OSError path))
        end.

(** [ipc.new_file(pa.OSFile(path, 'wb'), table.schema)], then
    [write_table(table)] and [close()]: the file at [path] then holds
    the table that is in memory. This is the write to a path other
    than the one the table was read from. The table [read_all] returns
    is a view of the memory-mapped input file, and opening that same
    file with ['wb'] truncates it under the view: what the columns read
    from the file then hold is outside this model, and no property
    below that speaks of the content written is stated for an output
    path equal to the input path. *)
Definition write_table (path : string) (t : Table) : IO unit :=
  λ fs, (<[path:=t]> fs, Ok ()).

End Arrow.

Export Arrow (Column, GeometryCol, Float64Col, PyObj, PyNone, PyList, PyFloat,
              Table, mkTable, Files, IO).

#[export] Instance IO_bind : MBind IO := λ A B k m, Arrow.bind m k.
#[export] Instance IO_ret : MRet IO := λ A a, Arrow.ret a.

(** ** [compute_bbox_from_geoarrow_polygon] *)

(** The two coordinate lists [all_x], [all_y] that a row accumulates. *)
Abbreviation Coords := (list F64.t * list F64.t)%type.

(** Body of [for vertex in ring]. *)
Definition visit_vertex (acc : Coords) (vertex : option Vertex)
  : result Coords :=
  match vertex with
  | None => Ok acc
  | Some d =>
      x ← Py.getitem d "x";
      let all_x := acc.1 ++ [x] in
      y ← Py.getitem d "y";
      let all_y := acc.2 ++ [y] in
      Ok (all_x, all_y)
  end.

(** Body of [for ring in poly]. *)
Definition visit_ring (acc : Coords) (ring : option Ring) : result Coords :=
  match ring with
  | None => Ok acc
  | Some vertices => Py.for_each visit_vertex vertices acc
  end.

(** Body of [for poly in polygon]. *)
Definition visit_polygon (acc : Coords) (poly : option Polygon)
  : result Coords :=
  match poly with
  | None => Ok acc
  | Some rings => Py.for_each visit_ring rings acc
  end.

(** [all_x] and [all_y] after the three nested loops. *)
Definition collect_coords (polygon : MultiPolygon) : result Coords :=
  Py.for_each visit_polygon polygon ([], []).

(** One row's result, in the order of the returned arrays. *)
Record BBox : Type := mkBBox {
  bminx : F64.t; bminy : F64.t; bmaxx : F64.t; bmaxy : F64.t
}.

Definition nan_bbox : BBox := mkBBox F64.nan F64.nan F64.nan F64.nan.

(** The four values the loop body (lines 34-61) stores at [row_idx]: NaN
    four times for a [None] row and for a row that collected nothing,
    the extrema of [all_x] and [all_y] otherwise. Iterating over a row
    that is a float raises [TypeError]. *)
Definition row_bbox (polygon : PyObj) : result BBox :=
  match polygon with
  | PyNone => Ok nan_bbox
  | PyFloat _ => Raise TypeError
  | PyList polygon =>
      '(all_x, all_y) ← collect_coords polygon;
      if Py.truthy all_x then
        mnx ← Py.min all_x;
        mxx ← Py.max all_x;
        mny ← Py.min all_y;
        mxy ← Py.max all_y;
        Ok (mkBBox mnx mny mxx mxy)
      else Ok nan_bbox
  end.

(** The four output arrays [minx], [miny], [maxx], [maxy]. *)
Record Arrays : Type := mkArrays {
  minx : list F64.t; miny : list F64.t; maxx : list F64.t; maxy : list F64.t
}.

(** [np.full(n_rows, np.inf)] twice and [np.full(n_rows, -np.inf)] twice. *)
Definition seed_arrays (n_rows : nat) : Arrays :=
  mkArrays (replicate n_rows F64.inf) (replicate n_rows F64.inf)
           (replicate n_rows F64.neg_inf) (replicate n_rows F64.neg_inf).

(** The stores to [minx[row_idx]], [maxx[row_idx]], [miny[row_idx]] and
    [maxy[row_idx]]. The arrays are equally long, so the order of the
    four stores, which differs between the branches, does not show. *)
Definition store_row (out : Arrays) (row_idx : nat) (b : BBox)
  : result Arrays :=
  a ← Py.setitem (minx out) row_idx (bminx b);
  c ← Py.setitem (maxx out) row_idx (bmaxx b);
  b' ← Py.setitem (miny out) row_idx (bminy b);
  d ← Py.setitem (maxy out) row_idx (bmaxy b);
  Ok (mkArrays a b' c d).

(** Body of [for row_idx in range(n_rows)]: read the row, compute its
    four values, store them. *)
Definition row_step (geometry_col : Column) (out : Arrays) (row_idx : nat)
  : result Arrays :=
  polygon ← Arrow.as_py geometry_col row_idx;
  b ← row_bbox polygon;
  store_row out row_idx b.

Definition compute_bbox_from_geoarrow_polygon (geometry_col : Column)
  : result Arrays :=
  let n_rows := Arrow.len geometry_col in
  Py.for_each (row_step geometry_col) (seq 0 n_rows) (seed_arrays n_rows).

(** ** [add_bbox_columns]

    The call as lines 66-100 have it. With an output path equal to the
    input path the last step writes over the file the table is a view
    of (see [Arrow.write_table]): what such a call returns and which
    file it touches is as here, the content it leaves is not claimed. *)

Definition add_bbox_columns (input_path output_path : string) : IO unit :=
  table ← Arrow.read_all input_path;
  let existing_cols := Arrow.column_names table in
  if decide ("bbox_minx" ∈ existing_cols) then mret ()
  else
    geom_col ← Arrow.lift (Arrow.column table "geometry");
    out ← Arrow.lift (compute_bbox_from_geoarrow_polygon geom_col);
    table ← Arrow.lift (Arrow.append_column table "bbox_minx" (minx out));
    table ← Arrow.lift (Arrow.append_column table "bbox_miny" (miny out));
    table ← Arrow.lift (Arrow.append_column table "bbox_maxx" (maxx out));
    table ← Arrow.lift (Arrow.append_column table "bbox_maxy" (maxy out));
    Arrow.write_table output_path table.

(** ** Vocabulary of the properties *)

(** The vertices the traversal of a row reaches, in visiting order: every
    vertex that is not [None], in a ring that is not [None], in a polygon
    that is not [None]. *)
Definition ring_vertices (ring : option Ring) : list Vertex :=
  match ring with
  | None => []
  | Some vertices => omap id vertices
  end.

Definition polygon_vertices (poly : option Polygon) : list Vertex :=
  match poly with
  | None => []
  | Some rings => rings ≫= ring_vertices
  end.

Definition usable_vertices (polygon : MultiPolygon) : list Vertex :=
  polygon ≫= polygon_vertices.

Definition cell_vertices (cell : Cell) : list Vertex :=
  match cell with
  | None => []
  | Some polygon => usable_vertices polygon
  end.

(** The values the vertices carry under a field name. *)
Definition coords_of (key : string) (vs : list Vertex) : list F64.t :=
  omap (λ d : Vertex, d !! key) vs.

(** A vertex dict with both coordinate fields, as [struct<x, y>] decodes. *)
Definition has_xy (d : Vertex) : bool :=
  bool_decide (is_Some (d !! "x")) && bool_decide (is_Some (d !! "y")).

Definition cell_has_xy (cell : Cell) : bool :=
  forallb has_xy (cell_vertices cell).

(** No NaN among the values. *)
Definition no_nan (xs : list F64.t) : bool :=
  forallb (λ a, negb (F64.is_nan a)) xs.

(** No infinity among the values. *)
Definition no_inf (xs : list F64.t) : bool :=
  forallb (λ a, negb (F64.is_inf a)) xs.

(** Both [0.0] and [-0.0] occur among the values. *)
Definition is_pos_zero (a : F64.t) : bool :=
  match a with S754_zero false => true | _ => false end.
Definition is_neg_zero (a : F64.t) : bool :=
  match a with S754_zero true => true | _ => false end.
Definition mixed_zeros (xs : list F64.t) : bool :=
  existsb is_pos_zero xs && existsb is_neg_zero xs.

(** The rows of a geometry column as the loop reads them. *)
Definition cell_as_py (cell : Cell) : PyObj :=
  match cell with
  | None => PyNone
  | Some polygon => PyList polygon
  end.

(** The coordinate lists of a row, and what the loop body makes of them. *)
Definition row_xs (cell : Cell) : list F64.t := coords_of "x" (cell_vertices cell).
Definition row_ys (cell : Cell) : list F64.t := coords_of "y" (cell_vertices cell).

Definition bbox_of_coords (all_x all_y : list F64.t) : result BBox :=
  if Py.truthy all_x then
    mnx ← Py.min all_x;
    mxx ← Py.max all_x;
    mny ← Py.min all_y;
    mxy ← Py.max all_y;
    Ok (mkBBox mnx mny mxx mxy)
  else Ok nan_bbox.

(** Each of the four values is the respective coordinate of some usable
    vertex of the row. *)
Definition attained (cell : Cell) (b : BBox) : Prop :=
  (∃ d, d ∈ cell_vertices cell ∧ d !! "x" = Some (bminx b))
  ∧ (∃ d, d ∈ cell_vertices cell ∧ d !! "y" = Some (bminy b))
  ∧ (∃ d, d ∈ cell_vertices cell ∧ d !! "x" = Some (bmaxx b))
  ∧ (∃ d, d ∈ cell_vertices cell ∧ d !! "y" = Some (bmaxy b)).

(** The four values are what [min] and [max] return on the coordinates
    the row collected. *)
Definition extrema (cell : Cell) (b : BBox) : Prop :=
  Py.min (row_xs cell) = Ok (bminx b)
  ∧ Py.min (row_ys cell) = Ok (bminy b)
  ∧ Py.max (row_xs cell) = Ok (bmaxx b)
  ∧ Py.max (row_ys cell) = Ok (bmaxy b).

(** [minX <= x <= maxX] for every usable vertex, and [minX <= maxX]. *)
Definition bounds_x (cell : Cell) (b : BBox) : Prop :=
  F64.leb (bminx b) (bmaxx b) = true
  ∧ ∀ d x, d ∈ cell_vertices cell → d !! "x" = Some x →
      F64.leb (bminx b) x = true ∧ F64.leb x (bmaxx b) = true.

(** [minY <= y <= maxY] for every usable vertex, and [minY <= maxY]. *)
Definition bounds_y (cell : Cell) (b : BBox) : Prop :=
  F64.leb (bminy b) (bmaxy b) = true
  ∧ ∀ d y, d ∈ cell_vertices cell → d !! "y" = Some y →
      F64.leb (bminy b) y = true ∧ F64.leb y (bmaxy b) = true.

(** Every row of a column as the loop reads it, and the per-row results
    gathered into a list, stopping at the first exception. *)
Definition rows_as_py (col : Column) : list PyObj :=
  match col with
  | GeometryCol cells => cell_as_py <$> cells
  | Float64Col vals => PyFloat <$> vals
  end.

Fixpoint rows_bbox (rows : list PyObj) : result (list BBox) :=
  match rows with
  | [] => Ok []
  | polygon :: rest =>
      b ← row_bbox polygon;
      bs ← rows_bbox rest;
      Ok (b :: bs)
  end.

(** Row [i] of the four returned arrays. *)
Definition row_at (out : Arrays) (i : nat) : option BBox :=
  a ← minx out !! i;
  b ← miny out !! i;
  c ← maxx out !! i;
  d ← maxy out !! i;
  Some (mkBBox a b c d).

(** The arrays that hold the given rows, one per index. *)
Definition arrays_of (rows : list BBox) : Arrays :=
  mkArrays (bminx <$> rows) (bminy <$> rows) (bmaxx <$> rows) (bmaxy <$> rows).

(** Concatenation of two results, array by array. *)
Definition arrays_app (o1 o2 : Arrays) : Arrays :=
  mkArrays (minx o1 ++ minx o2) (miny o1 ++ miny o2)
           (maxx o1 ++ maxx o2) (maxy o1 ++ maxy o2).

(** No infinity among the coordinates of a column, nor in a result. *)
Definition no_inf_coords (cells : list Cell) : bool :=
  forallb (λ cell, no_inf (row_xs cell) && no_inf (row_ys cell)) cells.

Definition no_inf_out (out : Arrays) : bool :=
  no_inf (minx out) && no_inf (miny out)
  && no_inf (maxx out) && no_inf (maxy out).

(** None of the four values of a row is an infinity. *)
Definition bbox_no_inf (b : BBox) : Prop :=
  F64.is_inf (bminx b) = false ∧ F64.is_inf (bminy b) = false
  ∧ F64.is_inf (bmaxx b) = false ∧ F64.is_inf (bmaxy b) = false.

(** The names the augmenter appends, and what a table holds of them. *)
Definition bbox_names : list string :=
  ["bbox_minx"; "bbox_miny"; "bbox_maxx"; "bbox_maxy"].

Definition has_column (t : Table) (name : string) : bool :=
  bool_decide (name ∈ Arrow.column_names t).

(** All four names are fields of the table. *)
Definition has_bbox_columns (t : Table) : bool :=
  forallb (has_column t) bbox_names.

(** One of the three names the guard does not look at is a field. *)
Definition has_other_bbox_column (t : Table) : bool :=
  has_column t "bbox_miny" || has_column t "bbox_maxx"
  || has_column t "bbox_maxy".

(** Every column of a table has one value per row. *)
Definition table_valid (t : Table) : bool :=
  forallb (λ nc, Nat.eqb (Arrow.len nc.2) (Arrow.num_rows t))
          (Arrow.columns t).

(** The table with the four arrays appended, in the order of the code. *)
Definition with_bbox (t : Table) (out : Arrays) : Table :=
  mkTable (Arrow.num_rows t)
          (Arrow.columns t ++
           [("bbox_minx", Float64Col (minx out));
            ("bbox_miny", Float64Col (miny out));
            ("bbox_maxx", Float64Col (maxx out));
            ("bbox_maxy", Float64Col (maxy out))]).

(** A vertex dict from two coordinates; a vertex and a result row from
    small integers. *)
Definition vertex (x y : F64.t) : Vertex := {[ "x" := x; "y" := y ]}.

Definition pt (x y : nat) : option Vertex :=
  Some (vertex (F64.of_nat x) (F64.of_nat y)).

Definition bbox_of_nat (a b c d : nat) : BBox :=
  mkBBox (F64.of_nat a) (F64.of_nat b) (F64.of_nat c) (F64.of_nat d).

(** ** Sample data *)

(** A row to try the properties on: a square with a hole, next to a
    triangle, with an absent ring and an absent vertex among them. *)
Definition sample_cell : Cell :=
  Some [Some [Some [pt 0 0; pt 0 4; pt 3 4; pt 3 0];
              Some [pt 1 1; None; pt 2 2]];
        None;
        Some [None; Some [pt 5 1; pt 7 1; pt 6 6]]].

Definition sample_column : list Cell :=
  [Some [Some [Some [pt 1 1; pt 2 2]]]; None; sample_cell].

(** The three shapes of such a cell. *)
Definition absent_cell : Cell := None.
Definition empty_cell : Cell := Some [].
Definition hollow_cell : Cell :=
  Some [None; Some []; Some [None; Some []; Some [None; None]]].

(** A row whose last vertex has no [y] field. *)
Definition malformed_cell : Cell :=
  Some [Some [Some [pt 1 1; None; Some {[ "x" := F64.of_nat 2 ]}]]].

(** Tables to try the augmenter on. *)
Definition plain_table : Table :=
  mkTable 3 [("catchID", Float64Col [F64.of_nat 7; F64.of_nat 8; F64.of_nat 9]);
             ("geometry", GeometryCol sample_column)].

Definition sample_out : Arrays :=
  arrays_of [bbox_of_nat 1 1 2 2; nan_bbox; bbox_of_nat 0 0 7 6].

Definition augmented_table : Table := with_bbox plain_table sample_out.

(** A table that holds [bbox_miny] but not [bbox_minx]. *)
Definition half_augmented_table : Table :=
  mkTable 3 [("bbox_miny", Float64Col [F64.nan; F64.nan; F64.nan]);
             ("geometry", GeometryCol sample_column)].

(** A table with neither a geometry nor a bbox column, and one with
    [bbox_minx] but no geometry. *)
Definition attribute_table : Table :=
  mkTable 2 [("catchID", Float64Col [F64.of_nat 7; F64.of_nat 8])].

Definition bbox_only_table : Table :=
  mkTable 2 [("bbox_minx", Float64Col [F64.of_nat 0; F64.of_nat 1])].

(** A table with [bbox_miny], without [bbox_minx] and without a
    geometry column. *)
Definition bbox_miny_only_table : Table :=
  mkTable 2 [("catchID", Float64Col [F64.of_nat 7; F64.of_nat 8]);
             ("bbox_miny", Float64Col [F64.of_nat 0; F64.of_nat 1])].

(** Equality of floats as data (not [==]) is decidable, and so are
    equality of vertices and inclusion between lists of them. *)
#[export] Instance spec_float_eq_dec : EqDecision spec_float.
Proof. solve_decision. Defined.

(** ** The scripts as programs

    How a run of a script ends: it returns, it leaves through
    [sys.exit], or an exception reaches the top. *)

Module Script.

Inductive outcome : Type :=
| Returned
| Exited (status : nat)
| Uncaught (e : Py.exn).

Definition finish {A} (r : result A) : outcome :=
  match r with
  | Ok _ => Returned
  | Raise e => Uncaught e
  end.

End Script.

(** The [__main__] block of [add_bbox_to_arrow.py], on [sys.argv]. *)

Module AddBBoxToArrow.

Definition main (argv : list string) (fs : Files) : Files * Script.outcome :=
  if decide (length argv < 2) then (fs, Script.Exited 1)
  else
    match argv !! 1 with
    | None => (fs, Script.Uncaught IndexError)
    | Some input_path =>
        match (if decide (2 < length argv) then argv !! 2
               else Some input_path) with
        | None => (fs, Script.Uncaught IndexError)
        | Some output_path =>
            let (fs', r) := add_bbox_columns input_path output_path fs in
            (fs', Script.finish r)
        end
    end.

End AddBBoxToArrow.

(** ** Paths and files of the conversion scripts

    A path is the list of its components, [p / name] adds one; the
    files are the paths that exist, each with its content. The content
    of a file is left open: the scripts hand it to [pyarrow] and
    [geopandas] and never look at it. Directories are not modelled:
    the output directory is taken to be there or creatable, and a write
    to succeed. *)

Module Fs.

Abbreviation Path := (list string).

Definition join (p : Path) (name : string) : Path := p ++ [name].

Definition path_str (p : Path) : string := String.concat "/" p.

(** [path.exists()]. *)
Definition exists_ {Content} (fs : gmap Path Content) (p : Path) : bool :=
  match fs !! p with
  | Some _ => true
  | None => false
  end.

(** Opening a file to read it. *)
Definition read {Content} (fs : gmap Path Content) (p : Path)
  : result Content :=
  match fs !! p with
  | Some c => Ok c
  | None => Raise (OSError (path_str p))
  end.

End Fs.

(** ** [csv2parquet.py] *)

Module Csv2Parquet.

Record Info : Type := mkInfo { description : string; output : string }.

(** The dict [CSV_FILES], in the order of its keys. *)
Definition CSV_FILES : list (string * Info) :=
  [("current.csv",
    mkInfo "Current scenario catchment landscape data" "current.parquet");
   ("reference.csv",
    mkInfo "Reference scenario catchment landscape data" "reference.parquet");
   ("column_metadata.csv",
    mkInfo "Column metadata for landscape datasets" "column_Metadata.parquet")].

(** The parsed command line: [--data-dir], and [--output-dir] when given. *)
Record Args : Type := mkArgs {
  data_dir : Fs.Path;
  output_dir : option Fs.Path
}.

Section pyarrow.

Context {Content Tbl : Type}.

(** [pcsv.read_csv] with the options of lines 51-56, on the content of
    a file, and the content [pq.write_table] produces. *)
Variable read_csv : Content → result Tbl.
Variable write_table : Tbl → Content.

Definition convert_csv_to_parquet
    (csv_path parquet_path : Fs.Path) (description : string)
    (fs : gmap Fs.Path Content) : gmap Fs.Path Content * result unit :=
  match Fs.read fs csv_path with
  | Raise e => (fs, Raise e)
  | Ok text =>
      match read_csv text with
      | Raise e => (fs, Raise e)
      | Ok table => (<[parquet_path:=write_table table]> fs, Ok ())
      end
  end.

(** [for csv_name, info in CSV_FILES.items()], with the counter
    [converted]. *)
Fixpoint convert_files (data_dir output_dir : Fs.Path)
    (items : list (string * Info)) (converted : nat)
    (fs : gmap Fs.Path Content) : gmap Fs.Path Content * result nat :=
  match items with
  | [] => (fs, Ok converted)
  | (csv_name, info) :: rest =>
      let csv_path := Fs.join data_dir csv_name in
      if negb (Fs.exists_ fs csv_path)
      then convert_files data_dir output_dir rest converted fs
      else
        let parquet_path := Fs.join output_dir (output info) in
        match convert_csv_to_parquet csv_path parquet_path
                (description info) fs with
        | (fs', Raise e) => (fs', Raise e)
        | (fs', Ok _) =>
            convert_files data_dir output_dir rest (converted + 1) fs'
        end
  end.

(** [main], from the line after [args = parser.parse_args()]: the
    command line has been parsed into [args]. What [argparse] does
    before that, its own exits on [--help] or on a command line it
    refuses, is not part of this function. *)
Definition main (args : Args) (fs : gmap Fs.Path Content)
  : gmap Fs.Path Content * Script.outcome :=
  let output_dir :=
    match output_dir args with
    | Some d => d
    | None => data_dir args
    end in
  match convert_files (data_dir args) output_dir CSV_FILES 0 fs with
  | (fs', Raise e) => (fs', Script.Uncaught e)
  | (fs', Ok converted) =>
      if decide (converted = 0) then (fs', Script.Exited 1)
      else (fs', Script.Returned)
  end.

End pyarrow.

End Csv2Parquet.

(** ** [geoparquet_to_arrow.py] *)

Module GeoparquetToArrow.

Section geopandas.

Context {Content Tbl : Type}.

(** [gpd.read_parquet] followed by [to_arrow] and [read_all], on the
    content of a file, and the content the IPC writer produces. *)
Variable read_parquet : Content → result Tbl.
Variable write_ipc : Tbl → Content.

Definition convert (src dst : Fs.Path) (fs : gmap Fs.Path Content)
  : gmap Fs.Path Content * result unit :=
  match Fs.read fs src with
  | Raise e => (fs, Raise e)
  | Ok bytes =>
      match read_parquet bytes with
      | Raise e => (fs, Raise e)
      | Ok table => (<[dst:=write_ipc table]> fs, Ok ())
      end
  end.

(** [for name in ("reference", "current")]. *)
Fixpoint convert_names (data_dir : Fs.Path) (names : list string)
    (fs : gmap Fs.Path Content) : gmap Fs.Path Content * result unit :=
  match names with
  | [] => (fs, Ok ())
  | name :: rest =>
      let src := Fs.join data_dir (name +:+ ".geoarrow") in
      let dst := Fs.join data_dir (name +:+ ".arrow") in
      if negb (Fs.exists_ fs src) then convert_names data_dir rest fs
      else
        match convert src dst fs with
        | (fs', Raise e) => (fs', Raise e)
        | (fs', Ok _) => convert_names data_dir rest fs'
        end
  end.

(** [project_root] stands for [Path(__file__).parent.parent]. *)
Definition main (project_root : Fs.Path) (fs : gmap Fs.Path Content)
  : gmap Fs.Path Content * Script.outcome :=
  let data_dir := Fs.join project_root "data" in
  let (fs', r) := convert_names data_dir ["reference"; "current"] fs in
  (fs', Script.finish r).

End geopandas.

End GeoparquetToArrow.

(** The directory [main] writes to, the file a CSV file is converted
    to, and what a parse that succeeded leaves there. *)
Definition target_dir (args : Csv2Parquet.Args) : Fs.Path :=
  default (Csv2Parquet.data_dir args) (Csv2Parquet.output_dir args).

Definition csv_path (args : Csv2Parquet.Args)
    (item : string * Csv2Parquet.Info) : Fs.Path :=
  Fs.join (Csv2Parquet.data_dir args) item.1.

Definition parquet_path (args : Csv2Parquet.Args)
    (item : string * Csv2Parquet.Info) : Fs.Path :=
  Fs.join (target_dir args) (Csv2Parquet.output item.2).

Definition written {Content Tbl} (read : Content → result Tbl)
    (write : Tbl → Content) (c : Content) : option Content :=
  match read c with
  | Ok table => Some (write table)
  | Raise _ => None
  end.

(** The two files [geoparquet_to_arrow.py] reads and the two it writes. *)
Definition geoarrow_path (project_root : Fs.Path) (name : string) : Fs.Path :=
  Fs.join (Fs.join project_root "data") (name +:+ ".geoarrow").

Definition arrow_path (project_root : Fs.Path) (name : string) : Fs.Path :=
  Fs.join (Fs.join project_root "data") (name +:+ ".arrow").

(** A stand-in for the libraries, to run the scripts on: a file parses
    unless it is empty, and a table is its lines. *)
Definition toy_read (text : string) : result (list string) :=
  if decide (text = "") then Raise ArrowInvalid else Ok [text].

Definition toy_write (table : list string) : string :=
  String.concat "," table.

Definition toy_args : Csv2Parquet.Args :=
  Csv2Parquet.mkArgs ["data"] (Some ["out"]).

Definition toy_files : gmap Fs.Path string :=
  {[ ["data"; "current.csv"] := "catchID,a";
     ["data"; "column_metadata.csv"] := "name,unit";
     ["data"; "notes.txt"] := "keep" ]}.

Definition toy_files_broken : gmap Fs.Path string :=
  {[ ["data"; "current.csv"] := "catchID,a";
     ["data"; "reference.csv"] := "";
     ["data"; "column_metadata.csv"] := "name,unit" ]}.

Definition toy_geo_files : gmap Fs.Path string :=
  {[ ["repo"; "data"; "current.geoarrow"] := "wkb";
     ["repo"; "data"; "notes.txt"] := "keep" ]}.

Definition toy_geo_files_broken : gmap Fs.Path string :=
  {[ ["repo"; "data"; "reference.geoarrow"] := "";
     ["repo"; "data"; "current.geoarrow"] := "wkb" ]}.

(** The field that the first malformed vertex lacks: [x] is looked up
    before [y]. *)
Definition missing_field (d : Vertex) : string :=
  match d !! "x" with
  | None => "x"
  | Some _ => "y"
  end.

(** A vertex with a third field, and the sample row closed ring by ring:
    each ring repeats its first vertex at its end. *)
Definition vertex_z (x y z : F64.t) : Vertex :=
  {[ "x" := x; "y" := y; "z" := z ]}.

Definition closed_sample_cell : Cell :=
  Some [Some [Some [pt 0 0; pt 0 4; pt 3 4; pt 3 0; pt 0 0];
              Some [pt 1 1; None; pt 2 2; pt 1 1]];
        None;
        Some [None; Some [pt 5 1; pt 7 1; pt 6 6; pt 5 1]]].

(** The vertices of the sample row as one ring of one polygon, each with
    a [z] field. *)
Definition flat_sample_cell : Cell :=
  Some [Some [Some
    (fmap (λ xy : nat * nat,
             Some (vertex_z (F64.of_nat xy.1) (F64.of_nat xy.2) F64.nan))
          [(0, 0); (0, 4); (3, 4); (3, 0); (1, 1); (2, 2);
           (5, 1); (7, 1); (6, 6)])]].

(** Two rows with the two zeros as abscissas, in either order. *)
Definition zeros_cell : Cell :=
  Some [Some [Some [Some (vertex F64.pos_zero (F64.of_nat 1));
                    Some (vertex F64.neg_zero (F64.of_nat 1))]]].

Definition zeros_cell_reversed : Cell :=
  Some [Some [Some [Some (vertex F64.neg_zero (F64.of_nat 1));
                    Some (vertex F64.pos_zero (F64.of_nat 1))]]].

(** A row with an infinite abscissa next to finite ones. *)
Definition infinite_cell : Cell :=
  Some [Some [Some [Some (vertex F64.inf (F64.of_nat 0)); pt 1 2]]].

(** A row whose second vertex has a NaN abscissa. *)
Definition nan_later_cell : Cell :=
  Some [Some [Some [pt 2 3; Some (vertex F64.nan (F64.of_nat 5)); pt 1 4]]].

(** ** The specification's scenarios, run on the code *)

Example sample_values_binary64 :
  forallb F64.is_binary64
    [F64.nan; F64.inf; F64.neg_inf; F64.pos_zero; F64.neg_zero;
     F64.of_nat 0; F64.of_nat 1; F64.of_nat 2; F64.of_nat 7]
  = true.
Proof. vm_compute. reflexivity. Qed.

Example scenario_A :
  compute_bbox_from_geoarrow_polygon
    (GeometryCol [Some [Some [Some [pt 0 0; pt 0 4; pt 3 4; pt 3 0]]]])
  = Ok (arrays_of [bbox_of_nat 0 0 3 4]).
Proof. vm_compute. reflexivity. Qed.

Example scenario_B :
  compute_bbox_from_geoarrow_polygon (GeometryCol [None])
  = Ok (arrays_of [nan_bbox]).
Proof. vm_compute. reflexivity. Qed.

Example scenario_C :
  compute_bbox_from_geoarrow_polygon
    (GeometryCol [Some [Some [Some [pt 1 1; pt 2 2]]; Some [None]]])
  = Ok (arrays_of [bbox_of_nat 1 1 2 2]).
Proof. vm_compute. reflexivity. Qed.

Example scenario_D :
  compute_bbox_from_geoarrow_polygon
    (GeometryCol [Some [Some [Some [pt 0 0; pt 5 7]]]; None;
                  Some [Some [Some [pt 2 9; pt 8 1; pt 4 4]]]])
  = Ok (arrays_of [bbox_of_nat 0 0 5 7; nan_bbox; bbox_of_nat 2 1 8 9]).
Proof. vm_compute. reflexivity. Qed.

(** ** Comparison of floats

    [SFcompare] orders the values other than NaN by sign, then exponent,
    then mantissa; NaN is unordered with everything, itself included. *)

Section float_order.

Implicit Types a b c : F64.t.

Lemma compare_nan a b :
  SFcompare a b = None ↔ F64.is_nan a = true ∨ F64.is_nan b = true.
Proof.
  destruct a as [[]|[]| |[]], b as [[]|[]| |[]]; simpl; split;
    intros H; try discriminate; auto; destruct H; discriminate.
Qed.

Lemma compare_opp a b :
  SFcompare b a = CompOpp <$> SFcompare a b.
Proof.
  destruct a as [[]|[]| |[] m1 e1], b as [[]|[]| |[] m2 e2];
    simpl; try reflexivity;
    rewrite (Z.compare_antisym e1 e2);
    destruct (e1 ?= e2)%Z; simpl; try reflexivity;
    change (Pos.compare_cont Eq ?p ?q) with (Pos.compare p q);
    rewrite (Pos.compare_antisym m1 m2);
    destruct (m1 ?= m2)%positive; reflexivity.
Qed.

Lemma compare_refl a : F64.is_nan a = false → SFcompare a a = Some Eq.
Proof.
  destruct a as [[]|[]| |[] m e]; simpl; try done; intros _;
    rewrite Z.compare_refl;
    change (Pos.compare_cont Eq m m) with (Pos.compare m m);
    by rewrite Pos.compare_refl.
Qed.

(** Equal in the order means identical, except for the two zeros. *)
Lemma compare_Eq a b :
  SFcompare a b = Some Eq →
  a = b ∨ (F64.is_zero a = true ∧ F64.is_zero b = true).
Proof.
  destruct a as [[]|[]| |[] m1 e1], b as [[]|[]| |[] m2 e2];
    simpl; intros H; try discriminate; auto;
    destruct (Z.compare_spec e1 e2); try discriminate;
    change (Pos.compare_cont Eq m1 m2) with (Pos.compare m1 m2) in H;
    destruct (Pos.compare_spec m1 m2); try discriminate;
    subst; auto.
Qed.

Lemma compare_trans a b c :
  SFcompare a b = Some Lt ∨ SFcompare a b = Some Eq →
  SFcompare b c = Some Lt ∨ SFcompare b c = Some Eq →
  SFcompare a c = Some Lt ∨ SFcompare a c = Some Eq.
Proof.
  destruct a as [[]|[]| |[] m1 e1], b as [[]|[]| |[] m2 e2],
           c as [[]|[]| |[] m3 e3];
    simpl; intros [H1|H1] [H2|H2]; try discriminate; auto;
    change (Pos.compare_cont Eq ?p ?q) with (Pos.compare p q) in *;
    destruct (Z.compare_spec e1 e2), (Z.compare_spec e2 e3),
             (Z.compare_spec e1 e3); try discriminate; try lia; auto;
    destruct (Pos.compare_spec m1 m2), (Pos.compare_spec m2 m3),
             (Pos.compare_spec m1 m3);
    simpl in *; try discriminate; try lia; auto.
Qed.

Lemma leb_compare a b :
  F64.leb a b = true ↔ SFcompare a b = Some Lt ∨ SFcompare a b = Some Eq.
Proof.
  unfold F64.leb, SFleb.
  destruct (SFcompare a b) as [[]|]; intuition congruence.
Qed.

Lemma leb_refl a : F64.is_nan a = false → F64.leb a a = true.
Proof. intros H. apply leb_compare. right. by apply compare_refl. Qed.

Lemma leb_trans a b c :
  F64.leb a b = true → F64.leb b c = true → F64.leb a c = true.
Proof. rewrite !leb_compare. apply compare_trans. Qed.

Lemma leb_not_nan a b :
  F64.leb a b = true → F64.is_nan a = false ∧ F64.is_nan b = false.
Proof.
  rewrite leb_compare.
  destruct a as [[]|[]| |[]], b as [[]|[]| |[]]; simpl;
    intuition congruence.
Qed.

Lemma ltb_leb a b : F64.ltb a b = true → F64.leb a b = true.
Proof.
  unfold F64.ltb, F64.leb, SFltb, SFleb.
  by destruct (SFcompare a b) as [[]|].
Qed.

(** Without NaN the order is total. *)
Lemma ltb_false_leb a b :
  F64.is_nan a = false → F64.is_nan b = false →
  F64.ltb a b = false → F64.leb b a = true.
Proof.
  intros Ha Hb. unfold F64.ltb, F64.leb, SFltb, SFleb.
  rewrite (compare_opp a b).
  destruct (SFcompare a b) as [[]|] eqn:E; simpl; try done.
  apply compare_nan in E. destruct E; congruence.
Qed.

Lemma gtb_ltb a b : F64.gtb a b = F64.ltb b a.
Proof.
  unfold F64.gtb, F64.ltb, SFltb. rewrite (compare_opp a b).
  by destruct (SFcompare a b) as [[]|].
Qed.

Lemma leb_antisym a b :
  F64.leb a b = true → F64.leb b a = true →
  a = b ∨ (F64.is_zero a = true ∧ F64.is_zero b = true).
Proof.
  rewrite !leb_compare, (compare_opp a b). intros H1 H2.
  apply compare_Eq.
  destruct (SFcompare a b) as [[]|]; simpl in *; intuition congruence.
Qed.

Lemma eqb_leb a b :
  F64.eqb a b = true ↔ F64.leb a b = true ∧ F64.leb b a = true.
Proof.
  unfold F64.eqb, F64.leb, SFeqb, SFleb. rewrite (compare_opp a b).
  destruct (SFcompare a b) as [[]|]; simpl; intuition congruence.
Qed.

End float_order.

(** ** The builtins [min] and [max] *)

Section min_max.

Implicit Types (x best : F64.t) (xs rest : list F64.t).

Lemma no_nan_Forall xs :
  no_nan xs = true ↔ Forall (λ a, F64.is_nan a = false) xs.
Proof.
  unfold no_nan. rewrite forallb_forall, Forall_forall.
  split; intros H a Ha.
  - apply list_elem_of_In, H in Ha. by destruct (F64.is_nan a).
  - apply list_elem_of_In, H in Ha. by rewrite Ha.
Qed.

Lemma max_step_ltb best x :
  Py.max_step best x = if F64.ltb best x then x else best.
Proof. unfold Py.max_step. by rewrite gtb_ltb. Qed.

(** The result is one of the arguments, whatever they are. *)
Lemma foldl_min_step_elem rest x : foldl Py.min_step x rest ∈ x :: rest.
Proof.
  revert x. induction rest as [|y rest IH]; intros x; simpl.
  - apply list_elem_of_here.
  - specialize (IH (Py.min_step x y)). unfold Py.min_step in *.
    destruct (F64.ltb y x); apply elem_of_cons in IH as [->|IH];
      auto using list_elem_of_here, list_elem_of_further.
Qed.

Lemma foldl_max_step_elem rest x : foldl Py.max_step x rest ∈ x :: rest.
Proof.
  revert x. induction rest as [|y rest IH]; intros x; simpl.
  - apply list_elem_of_here.
  - specialize (IH (Py.max_step x y)). unfold Py.max_step in *.
    destruct (F64.gtb y x); apply elem_of_cons in IH as [->|IH];
      auto using list_elem_of_here, list_elem_of_further.
Qed.

(** Without NaN the result is below (above) every argument. *)
Lemma foldl_min_step_le rest x :
  F64.is_nan x = false → Forall (λ a, F64.is_nan a = false) rest →
  ∀ y, y ∈ x :: rest → F64.leb (foldl Py.min_step x rest) y = true.
Proof.
  revert x. induction rest as [|z rest IH]; intros x Hx Hrest y Hy; simpl.
  - apply list_elem_of_singleton in Hy as ->. by apply leb_refl.
  - apply Forall_cons in Hrest as [Hz Hrest].
    assert (F64.is_nan (Py.min_step x z) = false
            ∧ F64.leb (Py.min_step x z) x = true
            ∧ F64.leb (Py.min_step x z) z = true) as (Hn & Hlx & Hlz).
    { unfold Py.min_step. destruct (F64.ltb z x) eqn:E.
      - auto using ltb_leb, leb_refl.
      - auto using ltb_false_leb, leb_refl. }
    pose proof (IH _ Hn Hrest) as Hall.
    apply elem_of_cons in Hy as [->|Hy].
    + eapply leb_trans; [apply Hall, list_elem_of_here | done].
    + apply elem_of_cons in Hy as [->|Hy].
      * eapply leb_trans; [apply Hall, list_elem_of_here | done].
      * apply Hall. by apply list_elem_of_further.
Qed.

Lemma foldl_max_step_ge rest x :
  F64.is_nan x = false → Forall (λ a, F64.is_nan a = false) rest →
  ∀ y, y ∈ x :: rest → F64.leb y (foldl Py.max_step x rest) = true.
Proof.
  revert x. induction rest as [|z rest IH]; intros x Hx Hrest y Hy; simpl.
  - apply list_elem_of_singleton in Hy as ->. by apply leb_refl.
  - apply Forall_cons in Hrest as [Hz Hrest].
    assert (F64.is_nan (Py.max_step x z) = false
            ∧ F64.leb x (Py.max_step x z) = true
            ∧ F64.leb z (Py.max_step x z) = true) as (Hn & Hlx & Hlz).
    { rewrite max_step_ltb. destruct (F64.ltb x z) eqn:E.
      - auto using ltb_leb, leb_refl.
      - auto using ltb_false_leb, leb_refl. }
    pose proof (IH _ Hn Hrest) as Hall.
    apply elem_of_cons in Hy as [->|Hy].
    + eapply leb_trans; [done | apply Hall, list_elem_of_here].
    + apply elem_of_cons in Hy as [->|Hy].
      * eapply leb_trans; [done | apply Hall, list_elem_of_here].
      * apply Hall. by apply list_elem_of_further.
Qed.

Lemma min_elem xs m : Py.min xs = Ok m → m ∈ xs.
Proof.
  destruct xs as [|x rest]; [done|]. intros [= <-].
  apply foldl_min_step_elem.
Qed.

Lemma max_elem xs m : Py.max xs = Ok m → m ∈ xs.
Proof.
  destruct xs as [|x rest]; [done|]. intros [= <-].
  apply foldl_max_step_elem.
Qed.

Lemma min_le xs m :
  no_nan xs = true → Py.min xs = Ok m →
  ∀ y, y ∈ xs → F64.leb m y = true.
Proof.
  rewrite no_nan_Forall. destruct xs as [|x rest]; [done|].
  intros [Hx Hrest]%Forall_cons [= <-]. by apply foldl_min_step_le.
Qed.

Lemma max_ge xs m :
  no_nan xs = true → Py.max xs = Ok m →
  ∀ y, y ∈ xs → F64.leb y m = true.
Proof.
  rewrite no_nan_Forall. destruct xs as [|x rest]; [done|].
  intros [Hx Hrest]%Forall_cons [= <-]. by apply foldl_max_step_ge.
Qed.

(** On a non-empty list neither builtin raises. *)
Lemma min_total xs : xs ≠ [] → ∃ m, Py.min xs = Ok m.
Proof. destruct xs; [done|]. simpl. eauto. Qed.

Lemma max_total xs : xs ≠ [] → ∃ m, Py.max xs = Ok m.
Proof. destruct xs; [done|]. simpl. eauto. Qed.

End min_max.

(** ** The error monad and the loops *)

Section loops.

Context {S A : Type}.
Implicit Types (body : S → A → result S) (xs : list A) (s : S).

Lemma bind_Ok {B C} (b : B) (k : B → result C) : (Ok b ≫= k) = k b.
Proof. reflexivity. Qed.

Lemma bind_Raise {B C} e (k : B → result C) : (Raise e ≫= k) = Raise e.
Proof. reflexivity. Qed.

Lemma bind_inv_Ok {B C} (m : result B) (k : B → result C) c :
  (m ≫= k) = Ok c → ∃ b, m = Ok b ∧ k b = Ok c.
Proof. destruct m as [b|e]; [eauto | discriminate]. Qed.

Lemma for_each_cons body x xs s :
  Py.for_each body (x :: xs) s = body s x ≫= Py.for_each body xs.
Proof. reflexivity. Qed.

Lemma for_each_app body xs ys s :
  Py.for_each body (xs ++ ys) s
  = Py.for_each body xs s ≫= Py.for_each body ys.
Proof.
  revert s. induction xs as [|x xs IH]; intros s; [done|].
  rewrite <- app_comm_cons, !for_each_cons.
  destruct (body s x) as [s'|e]; [|done]. rewrite !bind_Ok. apply IH.
Qed.

End loops.

(** ** The traversal of one row *)

Section traversal.

Implicit Types (acc : Coords) (d : Vertex) (vs : list Vertex).

(** The nested loops visit exactly the usable vertices, in order. *)
Lemma for_each_vertex_flat (vertices : Ring) acc :
  Py.for_each visit_vertex vertices acc
  = Py.for_each (λ acc d, visit_vertex acc (Some d)) (omap id vertices) acc.
Proof.
  revert acc. induction vertices as [|[d|] vertices IH]; intros acc.
  - done.
  - change (omap id (Some d :: vertices)) with (d :: omap id vertices).
    rewrite !for_each_cons.
    destruct (visit_vertex acc (Some d)) as [acc'|e]; [|done].
    rewrite !bind_Ok. apply IH.
  - apply IH.
Qed.

Lemma visit_ring_flat ring acc :
  visit_ring acc ring
  = Py.for_each (λ acc d, visit_vertex acc (Some d)) (ring_vertices ring) acc.
Proof. destruct ring; [apply for_each_vertex_flat | done]. Qed.

Lemma for_each_ring_flat (rings : Polygon) acc :
  Py.for_each visit_ring rings acc
  = Py.for_each (λ acc d, visit_vertex acc (Some d))
                (rings ≫= ring_vertices) acc.
Proof.
  revert acc. induction rings as [|ring rings IH]; intros acc; [done|].
  rewrite bind_cons, for_each_app, for_each_cons, visit_ring_flat.
  destruct (Py.for_each _ (ring_vertices ring) acc); [|done].
  rewrite !bind_Ok. apply IH.
Qed.

Lemma visit_polygon_flat poly acc :
  visit_polygon acc poly
  = Py.for_each (λ acc d, visit_vertex acc (Some d))
                (polygon_vertices poly) acc.
Proof. destruct poly; [apply for_each_ring_flat | done]. Qed.

Lemma for_each_polygon_flat (polygon : MultiPolygon) acc :
  Py.for_each visit_polygon polygon acc
  = Py.for_each (λ acc d, visit_vertex acc (Some d))
                (usable_vertices polygon) acc.
Proof.
  unfold usable_vertices.
  revert acc. induction polygon as [|poly polygon IH]; intros acc; [done|].
  rewrite bind_cons, for_each_app, for_each_cons, visit_polygon_flat.
  destruct (Py.for_each _ (polygon_vertices poly) acc); [|done].
  rewrite !bind_Ok. apply IH.
Qed.

Lemma has_xy_lookup d :
  has_xy d = true ↔ ∃ x y, d !! "x" = Some x ∧ d !! "y" = Some y.
Proof.
  unfold has_xy. rewrite andb_true_iff, !bool_decide_eq_true.
  unfold is_Some. split.
  - intros [[x Hx] [y Hy]]. eauto.
  - intros (x & y & Hx & Hy). eauto.
Qed.

(** With both fields on every usable vertex the traversal appends each
    vertex's coordinates. *)
Lemma for_each_dict_Ok vs acc :
  forallb has_xy vs = true →
  Py.for_each (λ acc d, visit_vertex acc (Some d)) vs acc
  = Ok (acc.1 ++ coords_of "x" vs, acc.2 ++ coords_of "y" vs).
Proof.
  revert acc. induction vs as [|d vs IH]; intros [ax ay]; simpl.
  - intros _. by rewrite !app_nil_r.
  - rewrite andb_true_iff. intros [Hd Hvs].
    apply has_xy_lookup in Hd as (x & y & Hx & Hy).
    unfold Py.getitem. rewrite Hx, Hy. simpl.
    rewrite (IH _ Hvs). simpl. by rewrite <- !app_assoc.
Qed.

(** A usable vertex without one of the fields makes the lookup raise. *)
Lemma for_each_dict_Raise vs acc :
  forallb has_xy vs = false →
  ∃ key, (key = "x" ∨ key = "y")
    ∧ Py.for_each (λ acc d, visit_vertex acc (Some d)) vs acc
      = Raise (KeyError key).
Proof.
  revert acc. induction vs as [|d vs IH]; intros acc; simpl; [done|].
  rewrite andb_false_iff. unfold Py.getitem.
  destruct (d !! "x") as [x|] eqn:Hx; [|by eauto].
  destruct (d !! "y") as [y|] eqn:Hy; [|by eauto].
  rewrite !bind_Ok. intros [Hd|Hvs]; [|by apply IH].
  assert (has_xy d = true) by (apply has_xy_lookup; eauto). congruence.
Qed.

Lemma collect_coords_flat (polygon : MultiPolygon) :
  collect_coords polygon
  = Py.for_each (λ acc d, visit_vertex acc (Some d))
                (usable_vertices polygon) ([], []).
Proof. apply for_each_polygon_flat. Qed.

Lemma collect_coords_Ok (polygon : MultiPolygon) :
  forallb has_xy (usable_vertices polygon) = true →
  collect_coords polygon
  = Ok (coords_of "x" (usable_vertices polygon),
        coords_of "y" (usable_vertices polygon)).
Proof.
  intros H. rewrite collect_coords_flat. by rewrite for_each_dict_Ok.
Qed.

Lemma coords_of_length key vs :
  (∀ d, d ∈ vs → is_Some (d !! key)) →
  length (coords_of key vs) = length vs.
Proof.
  induction vs as [|d vs IH]; intros H; [done|]. unfold coords_of. simpl.
  destruct (H d) as [x Hx]; [apply list_elem_of_here|]. rewrite Hx. simpl.
  f_equal. apply IH. intros d' Hd'. apply H. by apply list_elem_of_further.
Qed.

Lemma coords_of_nil key vs :
  forallb has_xy vs = true → (key = "x" ∨ key = "y") →
  coords_of key vs = [] → vs = [].
Proof.
  destruct vs as [|d vs]; [done|]. simpl. rewrite andb_true_iff.
  intros [(x & y & Hx & Hy)%has_xy_lookup _] Hk. unfold coords_of. simpl.
  destruct Hk as [-> | ->]; [rewrite Hx | rewrite Hy]; done.
Qed.

End traversal.

(** ** The loop over rows *)

Section rows.

Lemma as_py_rows col i :
  Arrow.as_py col i
  = match rows_as_py col !! i with
    | Some polygon => Ok polygon
    | None => Raise IndexError
    end.
Proof.
  destruct col as [cells|vals]; simpl; rewrite list_lookup_fmap.
  - by destruct (cells !! i) as [[]|].
  - by destruct (vals !! i).
Qed.

Lemma row_step_lookup col out k polygon :
  rows_as_py col !! k = Some polygon →
  row_step col out k = b ← row_bbox polygon; store_row out k b.
Proof. intros H. unfold row_step. by rewrite as_py_rows, H. Qed.

Lemma len_rows col : Arrow.len col = length (rows_as_py col).
Proof. destruct col; simpl; by rewrite length_fmap. Qed.

Lemma setitem_middle {A} (l1 l2 : list A) (x y : A) i :
  i = length l1 →
  Py.setitem (l1 ++ x :: l2) i y = Ok ((l1 ++ [y]) ++ l2).
Proof.
  intros ->. unfold Py.setitem. rewrite decide_True.
  - replace (length l1) with (length l1 + 0) at 1 by lia.
    rewrite insert_app_r. simpl. by rewrite <- app_assoc.
  - rewrite length_app. simpl. lia.
Qed.

(** Storing row [k] after [k] rows are in place turns one more seed
    into a result. *)
Lemma store_row_next done_rows m b :
  store_row (arrays_app (arrays_of done_rows) (seed_arrays (S m)))
            (length done_rows) b
  = Ok (arrays_app (arrays_of (done_rows ++ [b])) (seed_arrays m)).
Proof.
  unfold store_row, arrays_app, arrays_of, seed_arrays. simpl.
  rewrite !fmap_app. simpl.
  rewrite !setitem_middle by (by rewrite length_fmap).
  reflexivity.
Qed.

Lemma arrays_of_nil_app out : arrays_app (arrays_of []) out = out.
Proof. by destruct out. Qed.

Lemma arrays_app_seed_0 out : arrays_app out (seed_arrays 0) = out.
Proof.
  destruct out. unfold arrays_app, seed_arrays. simpl.
  by rewrite !app_nil_r.
Qed.

(** Invariant of the loop: the first [k] slots hold the rows computed
    so far, the others still hold the seeds. *)
Lemma row_loop col m : ∀ k done_rows,
  k + m = length (rows_as_py col) → length done_rows = k →
  Py.for_each (row_step col) (seq k m)
    (arrays_app (arrays_of done_rows) (seed_arrays m))
  = bs ← rows_bbox (drop k (rows_as_py col));
    Ok (arrays_of (done_rows ++ bs)).
Proof.
  induction m as [|m IH]; intros k done_rows Hk Hlen.
  - rewrite drop_ge by lia. simpl.
    by rewrite arrays_app_seed_0, app_nil_r.
  - destruct (lookup_lt_is_Some_2 (rows_as_py col) k) as [polygon Hp];
      [lia|].
    rewrite (drop_S _ _ _ Hp).
    change (seq k (S m)) with (k :: seq (S k) m).
    rewrite for_each_cons, (row_step_lookup _ _ _ _ Hp).
    change (rows_bbox (polygon :: ?r))
      with (b ← row_bbox polygon; bs ← rows_bbox r; Ok (b :: bs)).
    destruct (row_bbox polygon) as [b|e]; [|done]. rewrite !bind_Ok.
    rewrite <- Hlen, store_row_next, bind_Ok.
    rewrite Hlen, (IH (S k) (done_rows ++ [b])).
    + destruct (rows_bbox (drop (S k) (rows_as_py col))); [|done].
      rewrite !bind_Ok. by rewrite <- app_assoc.
    + lia.
    + rewrite length_app. simpl. lia.
Qed.

(** The function stores, at each index, the result of that row. *)
Lemma compute_rows col :
  compute_bbox_from_geoarrow_polygon col
  = bs ← rows_bbox (rows_as_py col); Ok (arrays_of bs).
Proof.
  unfold compute_bbox_from_geoarrow_polygon.
  pose proof (row_loop col (Arrow.len col) 0 []) as H.
  rewrite arrays_of_nil_app in H. apply H; [|done]. by rewrite len_rows.
Qed.

End rows.

(** ** One row *)

Section one_row.

Implicit Types (cell : Cell) (b : BBox).

(** A row whose usable vertices all have both fields. *)
Lemma row_bbox_coords cell :
  cell_has_xy cell = true →
  row_bbox (cell_as_py cell) = bbox_of_coords (row_xs cell) (row_ys cell).
Proof.
  destruct cell as [polygon|]; [|done]. unfold cell_has_xy. simpl.
  intros H. by rewrite (collect_coords_Ok _ H).
Qed.

(** A row with a usable vertex that lacks a field. *)
Lemma row_bbox_KeyError cell :
  cell_has_xy cell = false →
  ∃ key, (key = "x" ∨ key = "y")
    ∧ row_bbox (cell_as_py cell) = Raise (KeyError key).
Proof.
  destruct cell as [polygon|]; [|done]. unfold cell_has_xy. simpl.
  intros H. rewrite collect_coords_flat.
  destruct (for_each_dict_Raise _ ([], []) H) as (key & Hkey & ->).
  eauto.
Qed.

Lemma row_xs_ys_nil cell :
  cell_has_xy cell = true →
  (row_xs cell = [] ↔ cell_vertices cell = [])
  ∧ (row_ys cell = [] ↔ cell_vertices cell = []).
Proof.
  intros H. unfold row_xs, row_ys. split; split; intros E.
  - apply (coords_of_nil "x"); auto.
  - by rewrite E.
  - apply (coords_of_nil "y"); auto.
  - by rewrite E.
Qed.

Lemma bbox_of_coords_nil all_y : bbox_of_coords [] all_y = Ok nan_bbox.
Proof. reflexivity. Qed.

(** When both lists are non-empty the four builtins return. *)
Lemma bbox_of_coords_Ok all_x all_y :
  all_x ≠ [] → all_y ≠ [] →
  ∃ mnx mny mxx mxy,
    Py.min all_x = Ok mnx ∧ Py.min all_y = Ok mny
    ∧ Py.max all_x = Ok mxx ∧ Py.max all_y = Ok mxy
    ∧ bbox_of_coords all_x all_y = Ok (mkBBox mnx mny mxx mxy).
Proof.
  intros Hx Hy. unfold bbox_of_coords.
  destruct (min_total _ Hx) as [mnx Hmnx], (max_total _ Hx) as [mxx Hmxx],
           (min_total _ Hy) as [mny Hmny], (max_total _ Hy) as [mxy Hmxy].
  exists mnx, mny, mxx, mxy. rewrite Hmnx, Hmxx, Hmny, Hmxy.
  by destruct all_x.
Qed.

(** A row of a well-formed cell never raises. *)
Lemma row_bbox_total cell :
  cell_has_xy cell = true → ∃ b, row_bbox (cell_as_py cell) = Ok b.
Proof.
  intros H. rewrite (row_bbox_coords _ H).
  destruct (row_xs_ys_nil _ H) as [Hx Hy].
  destruct (cell_vertices cell) as [|d vs] eqn:E.
  - rewrite (proj2 Hx eq_refl). eauto.
  - destruct (bbox_of_coords_Ok (row_xs cell) (row_ys cell))
      as (? & ? & ? & ? & _ & _ & _ & _ & ->); eauto;
      intros E'; [apply Hx in E' | apply Hy in E']; discriminate.
Qed.

(** The only exceptions of a geometry row are the two key lookups. *)
Lemma row_bbox_Raise cell e :
  row_bbox (cell_as_py cell) = Raise e →
  cell_has_xy cell = false ∧ (e = KeyError "x" ∨ e = KeyError "y").
Proof.
  destruct (cell_has_xy cell) eqn:H.
  - destruct (row_bbox_total _ H) as [b ->]. discriminate.
  - destruct (row_bbox_KeyError _ H) as (key & [-> | ->] & ->);
      intros [= <-]; auto.
Qed.

(** An element of a coordinate list is a field of a usable vertex. *)
Lemma elem_of_coords key (vs : list Vertex) (a : F64.t) :
  a ∈ coords_of key vs ↔ ∃ d, d ∈ vs ∧ d !! key = Some a.
Proof. unfold coords_of. apply list_elem_of_omap. Qed.

End one_row.

(** ** All rows *)

Section all_rows.

Implicit Types (rows : list PyObj) (bs : list BBox) (cells : list Cell).

Lemma rows_bbox_cons polygon rows :
  rows_bbox (polygon :: rows)
  = b ← row_bbox polygon; bs ← rows_bbox rows; Ok (b :: bs).
Proof. reflexivity. Qed.

Lemma rows_bbox_app rows1 rows2 :
  rows_bbox (rows1 ++ rows2)
  = bs1 ← rows_bbox rows1; bs2 ← rows_bbox rows2; Ok (bs1 ++ bs2).
Proof.
  induction rows1 as [|polygon rows1 IH].
  - simpl. by destruct (rows_bbox rows2).
  - rewrite <- app_comm_cons, !rows_bbox_cons, IH.
    destruct (row_bbox polygon) as [b|e]; [|done]. rewrite !bind_Ok.
    destruct (rows_bbox rows1) as [bs1|e]; [|done]. rewrite !bind_Ok.
    by destruct (rows_bbox rows2).
Qed.

Lemma rows_bbox_Forall2 rows bs :
  rows_bbox rows = Ok bs ↔
  Forall2 (λ polygon b, row_bbox polygon = Ok b) rows bs.
Proof.
  revert bs. induction rows as [|polygon rows IH]; intros bs.
  - simpl. split.
    + intros [= <-]. constructor.
    + intros ->%Forall2_nil_inv_l. done.
  - rewrite rows_bbox_cons. split.
    + intros (b & Hb & (bs' & Hbs & [= <-])%bind_inv_Ok)%bind_inv_Ok.
      constructor; [done|]. by apply IH.
    + intros (b & bs' & Hb & Hbs & ->)%Forall2_cons_inv_l.
      apply IH in Hbs. by rewrite Hb, bind_Ok, Hbs.
Qed.

Lemma rows_bbox_total rows :
  Forall (λ polygon, ∃ b, row_bbox polygon = Ok b) rows →
  ∃ bs, rows_bbox rows = Ok bs.
Proof.
  induction 1 as [|polygon rows [b Hb] _ [bs Hbs]]; [by exists []|].
  exists (b :: bs). by rewrite rows_bbox_cons, Hb, bind_Ok, Hbs.
Qed.

(** The first row that raises decides the exception of the whole. *)
Lemma rows_bbox_Raise rows e :
  rows_bbox rows = Raise e ↔
  ∃ rows1 polygon rows2, rows = rows1 ++ polygon :: rows2
    ∧ Forall (λ polygon, ∃ b, row_bbox polygon = Ok b) rows1
    ∧ row_bbox polygon = Raise e.
Proof.
  split.
  - induction rows as [|polygon rows IH]; [done|].
    rewrite rows_bbox_cons. destruct (row_bbox polygon) as [b|e'] eqn:Hb.
    + rewrite bind_Ok. destruct (rows_bbox rows) as [bs|e'']; [done|].
      intros [= ->].
      destruct IH as (rows1 & p & rows2 & -> & H1 & Hp); [done|].
      exists (polygon :: rows1), p, rows2. repeat split; eauto.
    + intros [= ->]. exists [], polygon, rows. auto.
  - intros (rows1 & polygon & rows2 & -> & H1 & Hp).
    rewrite rows_bbox_app. destruct (rows_bbox_total _ H1) as [bs1 ->].
    by rewrite bind_Ok, rows_bbox_cons, Hp.
Qed.

Lemma row_at_arrays_of bs i : row_at (arrays_of bs) i = bs !! i.
Proof.
  unfold row_at, arrays_of. simpl. rewrite !list_lookup_fmap.
  by destruct (bs !! i) as [[]|].
Qed.

Lemma arrays_of_app bs1 bs2 :
  arrays_of (bs1 ++ bs2) = arrays_app (arrays_of bs1) (arrays_of bs2).
Proof. unfold arrays_of, arrays_app. simpl. by rewrite !fmap_app. Qed.

Lemma arrays_of_lengths bs :
  length (minx (arrays_of bs)) = length bs
  ∧ length (miny (arrays_of bs)) = length bs
  ∧ length (maxx (arrays_of bs)) = length bs
  ∧ length (maxy (arrays_of bs)) = length bs.
Proof. unfold arrays_of. simpl. by rewrite !length_fmap. Qed.

Lemma forallb_cell_has_xy cells :
  forallb cell_has_xy cells = true ↔
  Forall (λ cell, cell_has_xy cell = true) cells.
Proof.
  rewrite forallb_forall, Forall_forall.
  split; intros H c Hc; apply H; by apply list_elem_of_In.
Qed.

(** On a column of well-formed cells the function returns, and row [i]
    of what it returns is the result of cell [i]. *)
Lemma compute_rowwise cells :
  forallb cell_has_xy cells = true →
  ∃ bs, compute_bbox_from_geoarrow_polygon (GeometryCol cells)
        = Ok (arrays_of bs)
    ∧ Forall2 (λ cell b, row_bbox (cell_as_py cell) = Ok b) cells bs.
Proof.
  intros H%forallb_cell_has_xy. rewrite compute_rows. simpl.
  destruct (rows_bbox_total (cell_as_py <$> cells)) as [bs Hbs].
  { apply Forall_fmap. eapply Forall_impl; [exact H|].
    intros cell Hc. by apply row_bbox_total. }
  exists bs. rewrite Hbs. split; [done|].
  apply rows_bbox_Forall2 in Hbs. by apply Forall2_fmap_l in Hbs.
Qed.

Lemma compute_row cells i cell :
  forallb cell_has_xy cells = true → cells !! i = Some cell →
  ∃ out b, compute_bbox_from_geoarrow_polygon (GeometryCol cells) = Ok out
    ∧ row_at out i = Some b
    ∧ row_bbox (cell_as_py cell) = Ok b.
Proof.
  intros H Hi. destruct (compute_rowwise _ H) as (bs & Hc & Hall).
  destruct (Forall2_lookup_l _ _ _ _ _ Hall Hi) as (b & Hb & Hrow).
  exists (arrays_of bs), b. by rewrite row_at_arrays_of.
Qed.

End all_rows.

(** ** Bound tightness *)

Section tightness.

Implicit Types (cell : Cell) (b : BBox).

Lemma bounds_of_min_max (xs : list F64.t) mn mx :
  no_nan xs = true → Py.min xs = Ok mn → Py.max xs = Ok mx →
  F64.leb mn mx = true
  ∧ ∀ x, x ∈ xs → F64.leb mn x = true ∧ F64.leb x mx = true.
Proof.
  intros Hn Hmn Hmx. split.
  - eapply min_le; eauto using max_elem.
  - intros x Hx. split; [eapply min_le | eapply max_ge]; eauto.
Qed.

(** What the loop body stores for a row with a usable vertex. *)
Lemma row_bbox_tight cell :
  cell_has_xy cell = true → 0 < length (cell_vertices cell) →
  ∃ b, row_bbox (cell_as_py cell) = Ok b
    ∧ Py.min (row_xs cell) = Ok (bminx b)
    ∧ Py.min (row_ys cell) = Ok (bminy b)
    ∧ Py.max (row_xs cell) = Ok (bmaxx b)
    ∧ Py.max (row_ys cell) = Ok (bmaxy b).
Proof.
  intros Hxy Hlen. rewrite (row_bbox_coords _ Hxy).
  destruct (row_xs_ys_nil _ Hxy) as [Hx Hy].
  destruct (bbox_of_coords_Ok (row_xs cell) (row_ys cell))
    as (mnx & mny & mxx & mxy & ? & ? & ? & ? & ->).
  - intros E%Hx. rewrite E in Hlen. simpl in Hlen. lia.
  - intros E%Hy. rewrite E in Hlen. simpl in Hlen. lia.
  - by exists (mkBBox mnx mny mxx mxy).
Qed.

Lemma row_bbox_attained cell b :
  Py.min (row_xs cell) = Ok (bminx b) →
  Py.min (row_ys cell) = Ok (bminy b) →
  Py.max (row_xs cell) = Ok (bmaxx b) →
  Py.max (row_ys cell) = Ok (bmaxy b) →
  attained cell b.
Proof.
  intros H1%min_elem H2%min_elem H3%max_elem H4%max_elem.
  unfold row_xs, row_ys in *. by rewrite !elem_of_coords in *.
Qed.

Lemma row_bbox_bounds_x cell b :
  no_nan (row_xs cell) = true →
  Py.min (row_xs cell) = Ok (bminx b) →
  Py.max (row_xs cell) = Ok (bmaxx b) →
  bounds_x cell b.
Proof.
  intros Hn Hmn Hmx.
  destruct (bounds_of_min_max _ _ _ Hn Hmn Hmx) as [Hle Hall].
  split; [done|]. intros d x Hd Hx. apply Hall, elem_of_coords. eauto.
Qed.

Lemma row_bbox_bounds_y cell b :
  no_nan (row_ys cell) = true →
  Py.min (row_ys cell) = Ok (bminy b) →
  Py.max (row_ys cell) = Ok (bmaxy b) →
  bounds_y cell b.
Proof.
  intros Hn Hmn Hmx.
  destruct (bounds_of_min_max _ _ _ Hn Hmn Hmx) as [Hle Hall].
  split; [done|]. intros d y Hd Hy. apply Hall, elem_of_coords. eauto.
Qed.

(** C1, as the code has it. For every row of a column of well-formed
    cells that has at least one usable vertex, the function returns,
    and each of minX, minY, maxX, maxY it stores for the row is the
    respective coordinate of some usable vertex of the row. When no x
    coordinate of the row is NaN, minX <= x <= maxX for every usable
    vertex and minX <= maxX; when no y coordinate is NaN, likewise for
    minY and maxY. *)
Theorem bbox_tight (cells : list Cell) i cell :
  forallb cell_has_xy cells = true →
  cells !! i = Some cell →
  0 < length (cell_vertices cell) →
  ∃ out b,
    compute_bbox_from_geoarrow_polygon (GeometryCol cells) = Ok out
    ∧ row_at out i = Some b
    ∧ attained cell b
    ∧ (no_nan (row_xs cell) = true → bounds_x cell b)
    ∧ (no_nan (row_ys cell) = true → bounds_y cell b).
Proof.
  intros Hwf Hi Hlen.
  destruct (compute_row _ _ _ Hwf Hi) as (out & b & Hout & Hrow & Hb).
  exists out, b. split; [done|]. split; [done|].
  assert (cell_has_xy cell = true) as Hxy.
  { apply forallb_cell_has_xy in Hwf.
    eapply Forall_lookup_1 in Hwf; eauto. }
  destruct (row_bbox_tight _ Hxy Hlen) as (b' & Hb' & H1 & H2 & H3 & H4).
  assert (b' = b) as -> by congruence.
  auto using row_bbox_attained, row_bbox_bounds_x, row_bbox_bounds_y.
Qed.

End tightness.

Lemma bbox_tight_witness :
  ∃ out b,
    compute_bbox_from_geoarrow_polygon (GeometryCol sample_column) = Ok out
    ∧ row_at out 2 = Some b
    ∧ attained sample_cell b
    ∧ (no_nan (row_xs sample_cell) = true → bounds_x sample_cell b)
    ∧ (no_nan (row_ys sample_cell) = true → bounds_y sample_cell b).
Proof.
  apply (bbox_tight sample_column 2 sample_cell).
  - vm_compute. reflexivity.
  - reflexivity.
  - vm_compute. lia.
Defined.

(** C1 fails as stated on a row that holds a NaN coordinate: [min] and
    [max] keep a leading NaN, and NaN is below nothing. *)
Lemma bbox_bounds_fail_on_nan :
  let cell : Cell :=
    Some [Some [Some [Some (vertex F64.nan (F64.of_nat 0)); pt 1 0]]] in
  ∃ out b,
    compute_bbox_from_geoarrow_polygon (GeometryCol [cell]) = Ok out
    ∧ row_at out 0 = Some b
    ∧ vertex (F64.of_nat 1) (F64.of_nat 0) ∈ cell_vertices cell
    ∧ F64.leb (bminx b) (F64.of_nat 1) = false
    ∧ F64.leb (bminx b) (bmaxx b) = false.
Proof.
  eexists _, _. split; [vm_compute; reflexivity|].
  split; [reflexivity|]. split; [|by vm_compute].
  apply list_elem_of_further, list_elem_of_here.
Qed.

(** ** Rows without a usable vertex *)

(** The usable vertices of a multipolygon, and when there is none: every
    vertex entry of every present ring of every present polygon is
    [None]. *)
Lemma elem_of_usable_vertices (polygon : MultiPolygon) (d : Vertex) :
  d ∈ usable_vertices polygon ↔
  ∃ (rings : Polygon) (vertices : Ring),
    Some rings ∈ polygon ∧ Some vertices ∈ rings ∧ Some d ∈ vertices.
Proof.
  unfold usable_vertices. rewrite list_elem_of_bind. split.
  - intros ([rings|] & Hd & Hp); [|by apply elem_of_nil in Hd].
    simpl in Hd. apply list_elem_of_bind in Hd as ([vertices|] & Hd & Hr);
      [|by apply elem_of_nil in Hd].
    simpl in Hd. apply list_elem_of_omap in Hd as ([d'|] & Hv & [= ->]).
    eauto.
  - intros (rings & vertices & Hp & Hr & Hv).
    exists (Some rings). split; [|done]. simpl.
    apply list_elem_of_bind. exists (Some vertices). split; [|done]. simpl.
    apply list_elem_of_omap. by exists (Some d).
Qed.

Lemma cell_vertices_nil (cell : Cell) :
  cell_vertices cell = [] ↔
  ∀ (polygon : MultiPolygon) (rings : Polygon) (vertices : Ring) v,
    cell = Some polygon → Some rings ∈ polygon → Some vertices ∈ rings →
    v ∈ vertices → v = None.
Proof.
  destruct cell as [polygon|]; simpl; [|by split]. split.
  - intros E p rings vertices [d|] [= <-] Hp Hr Hv; [|done].
    assert (d ∈ usable_vertices polygon) as Hd
      by (apply elem_of_usable_vertices; eauto).
    rewrite E in Hd. by apply elem_of_nil in Hd.
  - intros H. apply elem_of_nil_inv. intros d Hd.
    apply elem_of_usable_vertices in Hd as (rings & vertices & Hp & Hr & Hv).
    by specialize (H _ _ _ _ eq_refl Hp Hr Hv).
Qed.

(** C2. For every row of a column of well-formed cells whose geometry
    cell yields no usable vertex (the cell is absent, or is an empty
    multipolygon, or holds only absent polygons, rings and vertices) the
    function returns and the quadruple of that row is
    (NaN, NaN, NaN, NaN). *)
Theorem bbox_nan_without_vertices (cells : list Cell) i cell :
  forallb cell_has_xy cells = true →
  cells !! i = Some cell →
  cell_vertices cell = [] →
  ∃ out,
    compute_bbox_from_geoarrow_polygon (GeometryCol cells) = Ok out
    ∧ row_at out i = Some nan_bbox.
Proof.
  intros Hwf Hi Hnil.
  destruct (compute_row _ _ _ Hwf Hi) as (out & b & Hout & Hrow & Hb).
  exists out. split; [done|].
  assert (cell_has_xy cell = true) as Hxy.
  { unfold cell_has_xy. by rewrite Hnil. }
  rewrite (row_bbox_coords _ Hxy) in Hb. unfold row_xs, row_ys in Hb.
  rewrite Hnil in Hb. change (coords_of _ []) with (@nil F64.t) in Hb.
  rewrite bbox_of_coords_nil in Hb. congruence.
Qed.

Lemma bbox_nan_without_vertices_witness :
  ∃ out,
    compute_bbox_from_geoarrow_polygon
      (GeometryCol [absent_cell; sample_cell; empty_cell; hollow_cell])
    = Ok out
    ∧ row_at out 3 = Some nan_bbox.
Proof.
  apply (bbox_nan_without_vertices
           [absent_cell; sample_cell; empty_cell; hollow_cell] 3 hollow_cell).
  - vm_compute. reflexivity.
  - reflexivity.
  - reflexivity.
Defined.

Example absent_cell_nan :
  compute_bbox_from_geoarrow_polygon (GeometryCol [absent_cell])
  = Ok (arrays_of [nan_bbox]).
Proof. reflexivity. Qed.

Example empty_cell_nan :
  compute_bbox_from_geoarrow_polygon (GeometryCol [empty_cell])
  = Ok (arrays_of [nan_bbox]).
Proof. reflexivity. Qed.

(** ** Shape of the result *)

(** C3. For every column of well-formed cells, the empty column
    included, the function returns four arrays, each as long as the
    column, and row [i] of them is what the loop body computes from the
    cell at index [i] alone. *)
Theorem compute_shape (cells : list Cell) :
  forallb cell_has_xy cells = true →
  ∃ out,
    compute_bbox_from_geoarrow_polygon (GeometryCol cells) = Ok out
    ∧ length (minx out) = length cells
    ∧ length (miny out) = length cells
    ∧ length (maxx out) = length cells
    ∧ length (maxy out) = length cells
    ∧ ∀ i cell, cells !! i = Some cell →
        ∃ b, row_at out i = Some b ∧ row_bbox (cell_as_py cell) = Ok b.
Proof.
  intros Hwf. destruct (compute_rowwise _ Hwf) as (bs & Hout & Hall).
  exists (arrays_of bs). split; [done|].
  pose proof (Forall2_length _ _ _ Hall) as Hlen.
  destruct (arrays_of_lengths bs) as (-> & -> & -> & ->).
  repeat split; try done.
  intros i cell Hi. rewrite row_at_arrays_of.
  destruct (Forall2_lookup_l _ _ _ _ _ Hall Hi) as (b & Hb & Hrow). eauto.
Qed.

Lemma compute_shape_witness :
  ∃ out,
    compute_bbox_from_geoarrow_polygon (GeometryCol sample_column) = Ok out
    ∧ length (minx out) = length sample_column
    ∧ length (miny out) = length sample_column
    ∧ length (maxx out) = length sample_column
    ∧ length (maxy out) = length sample_column
    ∧ ∀ i cell, sample_column !! i = Some cell →
        ∃ b, row_at out i = Some b ∧ row_bbox (cell_as_py cell) = Ok b.
Proof. apply (compute_shape sample_column). vm_compute. reflexivity. Defined.

Example compute_empty_column :
  compute_bbox_from_geoarrow_polygon (GeometryCol [])
  = Ok (mkArrays [] [] [] []).
Proof. reflexivity. Qed.

(** Whatever the column holds, arrays that are returned have its length,
    and an exception is the exception of its first failing row. *)
Lemma compute_Ok_lengths col out :
  compute_bbox_from_geoarrow_polygon col = Ok out →
  length (minx out) = Arrow.len col ∧ length (miny out) = Arrow.len col
  ∧ length (maxx out) = Arrow.len col ∧ length (maxy out) = Arrow.len col.
Proof.
  rewrite compute_rows.
  intros (bs & Hbs & [= <-])%bind_inv_Ok.
  apply rows_bbox_Forall2, Forall2_length in Hbs.
  destruct (arrays_of_lengths bs) as (-> & -> & -> & ->).
  by rewrite len_rows.
Qed.

(** ** Row independence *)

(** C6. Computing the two halves of a column separately and
    concatenating the results in order is computing the whole column:
    the same arrays, or the same exception. *)
Theorem compute_app (cells1 cells2 : list Cell) :
  compute_bbox_from_geoarrow_polygon (GeometryCol (cells1 ++ cells2))
  = out1 ← compute_bbox_from_geoarrow_polygon (GeometryCol cells1);
    out2 ← compute_bbox_from_geoarrow_polygon (GeometryCol cells2);
    Ok (arrays_app out1 out2).
Proof.
  rewrite !compute_rows. simpl. rewrite fmap_app, rows_bbox_app.
  destruct (rows_bbox (cell_as_py <$> cells1)) as [bs1|e]; [|done].
  rewrite !bind_Ok.
  destruct (rows_bbox (cell_as_py <$> cells2)) as [bs2|e]; [|done].
  rewrite !bind_Ok. by rewrite arrays_of_app.
Qed.

Example compute_app_sample :
  compute_bbox_from_geoarrow_polygon
    (GeometryCol (sample_column ++ [hollow_cell; sample_cell]))
  = Ok (arrays_of [bbox_of_nat 1 1 2 2; nan_bbox; bbox_of_nat 0 0 7 6;
                   nan_bbox; bbox_of_nat 0 0 7 6]).
Proof. vm_compute. reflexivity. Qed.

(** ** The seeds of the accumulators *)

Section seeds.

Implicit Types (cell : Cell) (b : BBox).

Lemma no_inf_Forall (xs : list F64.t) :
  no_inf xs = true ↔ Forall (λ a, F64.is_inf a = false) xs.
Proof.
  unfold no_inf. rewrite forallb_forall, Forall_forall.
  split; intros H a Ha.
  - apply list_elem_of_In, H in Ha. by destruct (F64.is_inf a).
  - apply list_elem_of_In, H in Ha. by rewrite Ha.
Qed.

(** A stored row is the sentinel or is made of coordinates of the row. *)
Lemma row_bbox_cases cell b :
  cell_has_xy cell = true → row_bbox (cell_as_py cell) = Ok b →
  (cell_vertices cell = [] ∧ b = nan_bbox)
  ∨ (0 < length (cell_vertices cell) ∧ attained cell b).
Proof.
  intros Hxy Hb. destruct (cell_vertices cell) as [|d vs] eqn:E.
  - left. split; [done|]. rewrite (row_bbox_coords _ Hxy) in Hb.
    unfold row_xs, row_ys in Hb. rewrite E in Hb.
    change (coords_of _ []) with (@nil F64.t) in Hb.
    rewrite bbox_of_coords_nil in Hb. congruence.
  - right. rewrite <- E. assert (0 < length (cell_vertices cell)) as Hlen.
    { rewrite E. simpl. lia. }
    split; [done|].
    destruct (row_bbox_tight _ Hxy Hlen) as (b' & Hb' & H1 & H2 & H3 & H4).
    assert (b' = b) as -> by congruence.
    by apply row_bbox_attained.
Qed.

Lemma row_bbox_no_inf cell b :
  cell_has_xy cell = true →
  no_inf (row_xs cell) = true → no_inf (row_ys cell) = true →
  row_bbox (cell_as_py cell) = Ok b → bbox_no_inf b.
Proof.
  intros Hxy Hx Hy Hb.
  destruct (row_bbox_cases _ _ Hxy Hb) as [[_ ->]|[_ Hatt]]; [done|].
  apply no_inf_Forall in Hx, Hy. rewrite Forall_forall in Hx, Hy.
  destruct Hatt as ((d1 & ? & ?) & (d2 & ? & ?) & (d3 & ? & ?)
                    & (d4 & ? & ?)).
  repeat split; [apply Hx|apply Hy|apply Hx|apply Hy];
    apply elem_of_coords; eauto.
Qed.

Lemma arrays_of_no_inf (bs : list BBox) :
  Forall bbox_no_inf bs → no_inf_out (arrays_of bs) = true.
Proof.
  intros H. unfold no_inf_out, arrays_of. simpl.
  rewrite !andb_true_iff, !no_inf_Forall, !Forall_fmap.
  repeat split; (eapply Forall_impl; [exact H|]);
    intros b (? & ? & ? & ?); done.
Qed.

(** A stored row is the sentinel, or the extrema of what the row
    collected. *)
Lemma row_bbox_exact cell b :
  cell_has_xy cell = true → row_bbox (cell_as_py cell) = Ok b →
  (cell_vertices cell = [] ∧ b = nan_bbox)
  ∨ (0 < length (cell_vertices cell) ∧ extrema cell b ∧ attained cell b).
Proof.
  intros Hxy Hb.
  destruct (row_bbox_cases _ _ Hxy Hb) as [?|[Hlen Hatt]]; [by left|].
  right. split; [done|]. split; [|done].
  destruct (row_bbox_tight _ Hxy Hlen) as (b' & Hb' & H1 & H2 & H3 & H4).
  assert (b' = b) as -> by congruence. done.
Qed.

(** C4, as the code has it. For every column of well-formed cells the
    function returns, and each row's quadruple is the NaN sentinel,
    when the row has no usable vertex, or else the four values
    [min(all_x)], [min(all_y)], [max(all_x)], [max(all_y)] of that row,
    each of them a coordinate of a usable vertex of the row: the seeds
    are overwritten in both cases, whatever the coordinates are. So
    when no usable vertex of the column has an infinite coordinate, no
    value of the four arrays is an infinity. *)
Theorem seeds_not_exposed (cells : list Cell) :
  forallb cell_has_xy cells = true →
  ∃ out,
    compute_bbox_from_geoarrow_polygon (GeometryCol cells) = Ok out
    ∧ (∀ i cell, cells !! i = Some cell →
         ∃ b, row_at out i = Some b
           ∧ ((cell_vertices cell = [] ∧ b = nan_bbox)
              ∨ (0 < length (cell_vertices cell)
                 ∧ extrema cell b ∧ attained cell b)))
    ∧ (no_inf_coords cells = true → no_inf_out out = true).
Proof.
  intros Hwf. destruct (compute_rowwise _ Hwf) as (bs & Hout & Hall).
  apply forallb_cell_has_xy in Hwf.
  exists (arrays_of bs). split; [done|]. split.
  - intros i cell Hi. rewrite row_at_arrays_of.
    destruct (Forall2_lookup_l _ _ _ _ _ Hall Hi) as (b & Hb & Hrow).
    exists b. split; [done|]. apply row_bbox_exact; [|done].
    eapply Forall_lookup_1 in Hwf; eauto.
  - intros Hfin. apply arrays_of_no_inf.
    eapply Forall2_Forall_r; [exact Hall|].
    unfold no_inf_coords in Hfin. rewrite forallb_forall in Hfin.
    rewrite Forall_forall in *. intros cell Hcell b Hb.
    pose proof (Hfin cell (proj1 (list_elem_of_In _ _) Hcell)) as Hc.
    apply andb_true_iff in Hc as [Hx Hy].
    eapply row_bbox_no_inf; eauto.
Qed.

End seeds.

(** A column with an infinite abscissa in its second row. *)
Lemma seeds_not_exposed_witness :
  ∃ out,
    compute_bbox_from_geoarrow_polygon
      (GeometryCol [sample_cell; infinite_cell; hollow_cell]) = Ok out
    ∧ (∀ i cell, [sample_cell; infinite_cell; hollow_cell] !! i = Some cell →
         ∃ b, row_at out i = Some b
           ∧ ((cell_vertices cell = [] ∧ b = nan_bbox)
              ∨ (0 < length (cell_vertices cell)
                 ∧ extrema cell b ∧ attained cell b)))
    ∧ (no_inf_coords [sample_cell; infinite_cell; hollow_cell] = true →
       no_inf_out out = true).
Proof.
  apply (seeds_not_exposed [sample_cell; infinite_cell; hollow_cell]).
  vm_compute. reflexivity.
Defined.

Example infinite_cell_bbox :
  compute_bbox_from_geoarrow_polygon (GeometryCol [infinite_cell])
  = Ok (arrays_of [mkBBox (F64.of_nat 1) (F64.of_nat 0)
                          F64.inf (F64.of_nat 2)]).
Proof. vm_compute. reflexivity. Qed.

Example finite_column_no_inf :
  ∃ out,
    compute_bbox_from_geoarrow_polygon (GeometryCol sample_column) = Ok out
    ∧ no_inf_coords sample_column = true ∧ no_inf_out out = true.
Proof. eexists. split; [vm_compute; reflexivity|]. by vm_compute. Qed.

(** C4 fails as stated on a vertex whose coordinate is itself infinite:
    the minimum and the maximum of the row are that coordinate. *)
Lemma infinite_coordinate_exposed :
  let cell : Cell := Some [Some [Some [Some (vertex F64.inf (F64.of_nat 0))]]] in
  ∃ out,
    compute_bbox_from_geoarrow_polygon (GeometryCol [cell]) = Ok out
    ∧ minx out !! 0 = Some F64.inf
    ∧ maxx out !! 0 = Some F64.inf.
Proof. eexists. split; [vm_compute; reflexivity|]. by split. Qed.

(** ** Order of visit *)

Section visiting_order.

Implicit Types (xs ys : list F64.t) (cell : Cell).

Lemma no_nan_Permutation xs xs' :
  xs ≡ₚ xs' → no_nan xs = true → no_nan xs' = true.
Proof. rewrite !no_nan_Forall. by intros ->. Qed.

(** Two zeros of a list that does not hold both signs are the same. *)
Lemma zeros_agree xs a b :
  mixed_zeros xs = false → a ∈ xs → b ∈ xs →
  F64.is_zero a = true → F64.is_zero b = true → a = b.
Proof.
  intros Hmix Ha%list_elem_of_In Hb%list_elem_of_In Hza Hzb.
  destruct a as [sa| | |]; try discriminate.
  destruct b as [sb| | |]; try discriminate.
  destruct sa, sb; try done; exfalso;
    unfold mixed_zeros in Hmix; apply andb_false_iff in Hmix as [H|H];
    apply not_true_iff_false in H; apply H, existsb_exists; eauto.
Qed.

Lemma extremum_unique xs m m' :
  mixed_zeros xs = false → m ∈ xs → m' ∈ xs →
  F64.leb m m' = true → F64.leb m' m = true → m = m'.
Proof.
  intros Hmix Hm Hm' H1 H2.
  destruct (leb_antisym _ _ H1 H2) as [|[? ?]]; eauto using zeros_agree.
Qed.

Lemma min_Permutation xs xs' :
  xs ≡ₚ xs' → no_nan xs = true → mixed_zeros xs = false →
  Py.min xs = Py.min xs'.
Proof.
  intros Hp Hn Hmix.
  destruct xs as [|x rest].
  { apply Permutation_nil_l in Hp as <-. done. }
  destruct xs' as [|x' rest'].
  { by apply Permutation_nil_r in Hp. }
  destruct (min_total (x :: rest)) as [m Hm]; [done|].
  destruct (min_total (x' :: rest')) as [m' Hm']; [done|].
  rewrite Hm, Hm'. f_equal.
  pose proof (no_nan_Permutation _ _ Hp Hn) as Hn'.
  pose proof (min_elem _ _ Hm) as Hin.
  pose proof (min_elem _ _ Hm') as Hin'. rewrite <- Hp in Hin'.
  apply (extremum_unique (x :: rest)); try done.
  - by apply (min_le (x :: rest) m).
  - apply (min_le (x' :: rest') m'); [done|done|]. by rewrite <- Hp.
Qed.

Lemma max_Permutation xs xs' :
  xs ≡ₚ xs' → no_nan xs = true → mixed_zeros xs = false →
  Py.max xs = Py.max xs'.
Proof.
  intros Hp Hn Hmix.
  destruct xs as [|x rest].
  { apply Permutation_nil_l in Hp as <-. done. }
  destruct xs' as [|x' rest'].
  { by apply Permutation_nil_r in Hp. }
  destruct (max_total (x :: rest)) as [m Hm]; [done|].
  destruct (max_total (x' :: rest')) as [m' Hm']; [done|].
  rewrite Hm, Hm'. f_equal.
  pose proof (no_nan_Permutation _ _ Hp Hn) as Hn'.
  pose proof (max_elem _ _ Hm) as Hin.
  pose proof (max_elem _ _ Hm') as Hin'. rewrite <- Hp in Hin'.
  apply (extremum_unique (x :: rest)); try done.
  - apply (max_ge (x' :: rest') m'); [done|done|]. by rewrite <- Hp.
  - by apply (max_ge (x :: rest) m).
Qed.

Lemma bbox_of_coords_Permutation xs xs' ys ys' :
  xs ≡ₚ xs' → ys ≡ₚ ys' →
  no_nan xs = true → no_nan ys = true →
  mixed_zeros xs = false → mixed_zeros ys = false →
  bbox_of_coords xs ys = bbox_of_coords xs' ys'.
Proof.
  intros Hx Hy Hnx Hny Hmx Hmy. unfold bbox_of_coords.
  rewrite (min_Permutation xs xs'), (max_Permutation xs xs'),
          (min_Permutation ys ys'), (max_Permutation ys ys') by done.
  destruct xs, xs'; try done.
  - by apply Permutation_nil_l in Hx.
  - by apply Permutation_nil_r in Hx.
Qed.

Lemma cell_has_xy_Permutation cell1 cell2 :
  cell_vertices cell1 ≡ₚ cell_vertices cell2 →
  cell_has_xy cell1 = true → cell_has_xy cell2 = true.
Proof.
  unfold cell_has_xy. rewrite !forallb_forall. intros Hp H d Hd.
  apply H. apply list_elem_of_In. rewrite Hp. by apply list_elem_of_In.
Qed.

(** Replacing a row by one with the same result changes nothing else. *)
Lemma compute_congr_row (pre post : list Cell) cell1 cell2 :
  row_bbox (cell_as_py cell1) = row_bbox (cell_as_py cell2) →
  compute_bbox_from_geoarrow_polygon (GeometryCol (pre ++ cell1 :: post))
  = compute_bbox_from_geoarrow_polygon (GeometryCol (pre ++ cell2 :: post)).
Proof.
  intros H. rewrite !compute_rows. simpl.
  rewrite !fmap_app, !fmap_cons, !rows_bbox_app, !rows_bbox_cons.
  by rewrite H.
Qed.

(** C5, as the code has it. Take a row whose usable vertices all have
    both fields, none of whose coordinates is NaN, and which does not
    hold both 0.0 and -0.0 among its x coordinates nor among its y
    coordinates. Visiting its usable vertices in any other order gives
    the identical quadruple, and leaves the result of the whole column
    unchanged. *)
Theorem visiting_order_irrelevant cell1 cell2 :
  cell_vertices cell1 ≡ₚ cell_vertices cell2 →
  cell_has_xy cell1 = true →
  no_nan (row_xs cell1) = true → no_nan (row_ys cell1) = true →
  mixed_zeros (row_xs cell1) = false → mixed_zeros (row_ys cell1) = false →
  (∃ b, row_bbox (cell_as_py cell1) = Ok b
        ∧ row_bbox (cell_as_py cell2) = Ok b)
  ∧ ∀ pre post : list Cell,
      compute_bbox_from_geoarrow_polygon (GeometryCol (pre ++ cell1 :: post))
      = compute_bbox_from_geoarrow_polygon
          (GeometryCol (pre ++ cell2 :: post)).
Proof.
  intros Hp Hxy Hnx Hny Hmx Hmy.
  pose proof (cell_has_xy_Permutation _ _ Hp Hxy) as Hxy2.
  assert (row_bbox (cell_as_py cell1) = row_bbox (cell_as_py cell2)) as E.
  { rewrite !row_bbox_coords by done.
    apply bbox_of_coords_Permutation; try done;
      unfold row_xs, row_ys, coords_of; by rewrite Hp. }
  split.
  - destruct (row_bbox_total _ Hxy) as [b Hb]. exists b.
    by rewrite <- E.
  - intros pre post. by apply compute_congr_row.
Qed.

(** Reversing the polygons, the rings of each polygon and the vertices
    of each ring visits the same vertices. *)
Lemma ring_vertices_reverse (ring : Ring) :
  ring_vertices (Some (reverse ring)) ≡ₚ ring_vertices (Some ring).
Proof. simpl. by rewrite reverse_Permutation. Qed.

Lemma usable_vertices_reverse (polygon : MultiPolygon) :
  usable_vertices (reverse polygon) ≡ₚ usable_vertices polygon.
Proof. unfold usable_vertices. by rewrite reverse_Permutation. Qed.

End visiting_order.

Lemma visiting_order_irrelevant_witness :
  let reversed : Cell := reverse <$> sample_cell in
  (∃ b, row_bbox (cell_as_py sample_cell) = Ok b
        ∧ row_bbox (cell_as_py reversed) = Ok b)
  ∧ ∀ pre post : list Cell,
      compute_bbox_from_geoarrow_polygon
        (GeometryCol (pre ++ sample_cell :: post))
      = compute_bbox_from_geoarrow_polygon
          (GeometryCol (pre ++ reversed :: post)).
Proof.
  apply (visiting_order_irrelevant sample_cell (reverse <$> sample_cell)).
  - symmetry. apply usable_vertices_reverse.
  - vm_compute. reflexivity.
  - vm_compute. reflexivity.
  - vm_compute. reflexivity.
  - vm_compute. reflexivity.
  - vm_compute. reflexivity.
Defined.

(** C5 fails as stated on the two zeros: [min] and [max] keep the first
    of two values that compare equal, so the sign of the stored zero is
    the sign of the zero visited first. *)
Lemma visiting_order_shows_on_zeros :
  let p : option Vertex := Some (vertex F64.pos_zero (F64.of_nat 1)) in
  let n : option Vertex := Some (vertex F64.neg_zero (F64.of_nat 1)) in
  ∃ out out',
    compute_bbox_from_geoarrow_polygon (GeometryCol [Some [Some [Some [p; n]]]])
    = Ok out
    ∧ compute_bbox_from_geoarrow_polygon
        (GeometryCol [Some [Some [Some [n; p]]]])
      = Ok out'
    ∧ minx out !! 0 = Some F64.pos_zero
    ∧ minx out' !! 0 = Some F64.neg_zero.
Proof.
  eexists _, _. split; [vm_compute; reflexivity|].
  split; [vm_compute; reflexivity|]. by split.
Qed.

(** Likewise on NaN: a leading NaN is kept, a later one is passed over. *)
Example visiting_order_shows_on_nan :
  let a : option Vertex := Some (vertex F64.nan (F64.of_nat 1)) in
  let b : option Vertex := Some (vertex (F64.of_nat 2) (F64.of_nat 1)) in
  compute_bbox_from_geoarrow_polygon (GeometryCol [Some [Some [Some [a; b]]]])
  = Ok (arrays_of [mkBBox F64.nan (F64.of_nat 1) F64.nan (F64.of_nat 1)])
  ∧ compute_bbox_from_geoarrow_polygon
      (GeometryCol [Some [Some [Some [b; a]]]])
    = Ok (arrays_of [mkBBox (F64.of_nat 2) (F64.of_nat 1)
                            (F64.of_nat 2) (F64.of_nat 1)]).
Proof. split; vm_compute; reflexivity. Qed.

(** ** Absent and malformed vertices *)

Section malformed.

Implicit Types (cell : Cell) (d : Vertex).

Lemma cell_has_xy_false cell d :
  d ∈ cell_vertices cell → d !! "x" = None ∨ d !! "y" = None →
  cell_has_xy cell = false.
Proof.
  intros Hd Hnone. apply not_true_iff_false. unfold cell_has_xy.
  rewrite forallb_forall. intros H.
  specialize (H d (proj1 (list_elem_of_In _ _) Hd)).
  apply has_xy_lookup in H as (x & y & Hx & Hy).
  destruct Hnone; congruence.
Qed.

(** The result of a row depends on its usable vertices only. *)
Lemma row_bbox_vertices cell1 cell2 :
  cell_vertices cell1 = cell_vertices cell2 →
  row_bbox (cell_as_py cell1) = row_bbox (cell_as_py cell2).
Proof.
  assert (∀ cell, row_bbox (cell_as_py cell)
    = acc ← Py.for_each (λ acc d, visit_vertex acc (Some d))
                        (cell_vertices cell) ([], []);
      bbox_of_coords acc.1 acc.2) as Hflat.
  { intros [polygon|]; [|done]. simpl. rewrite collect_coords_flat.
    by destruct (Py.for_each _ _ _) as [[]|]. }
  intros E. by rewrite !Hflat, E.
Qed.

Lemma usable_vertices_skip_None
    (p1 p2 : MultiPolygon) (r1 r2 : Polygon) (v1 v2 : Ring) :
  usable_vertices (p1 ++ Some (r1 ++ Some (v1 ++ None :: v2) :: r2) :: p2)
  = usable_vertices (p1 ++ Some (r1 ++ Some (v1 ++ v2) :: r2) :: p2).
Proof.
  unfold usable_vertices. rewrite !bind_app, !bind_cons. simpl.
  rewrite !bind_app, !bind_cons. simpl. by rewrite !omap_app.
Qed.

(** C10. A usable vertex that lacks the field [x] or the field [y]
    makes the whole computation raise the key lookup's exception,
    wherever the row is in the column; a vertex that is [None], in any
    ring of any polygon of any row, is passed over: the computation
    gives what it gives without it. *)
Theorem malformed_vertex_raises (cells : list Cell) i cell d :
  cells !! i = Some cell →
  d ∈ cell_vertices cell →
  d !! "x" = None ∨ d !! "y" = None →
  (∃ key, (key = "x" ∨ key = "y")
     ∧ compute_bbox_from_geoarrow_polygon (GeometryCol cells)
       = Raise (KeyError key))
  ∧ ∀ (pre post : list Cell) (p1 p2 : MultiPolygon) (r1 r2 : Polygon)
      (v1 v2 : Ring),
      compute_bbox_from_geoarrow_polygon
        (GeometryCol
           (pre ++ Some (p1 ++ Some (r1 ++ Some (v1 ++ None :: v2) :: r2)
                            :: p2) :: post))
      = compute_bbox_from_geoarrow_polygon
          (GeometryCol
             (pre ++ Some (p1 ++ Some (r1 ++ Some (v1 ++ v2) :: r2) :: p2)
                  :: post)).
Proof.
  intros Hi Hd Hnone. split.
  - pose proof (cell_has_xy_false _ _ Hd Hnone) as Hbad.
    rewrite compute_rows. simpl.
    destruct (rows_bbox (cell_as_py <$> cells)) as [bs|e] eqn:E.
    + apply rows_bbox_Forall2, Forall2_fmap_l in E.
      destruct (Forall2_lookup_l _ _ _ _ _ E Hi) as (b & _ & Hb).
      destruct (row_bbox_KeyError _ Hbad) as (key & _ & Hraise).
      simpl in Hb. congruence.
    + apply rows_bbox_Raise in E
        as (rows1 & polygon & rows2 & Hsplit & _ & Hraise).
      apply fmap_app_inv in Hsplit as (cs1 & cs2 & _ & Hcs2 & _).
      symmetry in Hcs2.
      apply fmap_cons_inv in Hcs2 as (c & cs3 & -> & _ & _).
      apply row_bbox_Raise in Hraise as [_ [-> | ->]]; eauto.
  - intros. apply compute_congr_row, row_bbox_vertices.
    apply usable_vertices_skip_None.
Qed.

End malformed.

Lemma malformed_vertex_raises_witness :
  (∃ key, (key = "x" ∨ key = "y")
     ∧ compute_bbox_from_geoarrow_polygon
         (GeometryCol [sample_cell; malformed_cell])
       = Raise (KeyError key))
  ∧ ∀ (pre post : list Cell) (p1 p2 : MultiPolygon) (r1 r2 : Polygon)
      (v1 v2 : Ring),
      compute_bbox_from_geoarrow_polygon
        (GeometryCol
           (pre ++ Some (p1 ++ Some (r1 ++ Some (v1 ++ None :: v2) :: r2)
                            :: p2) :: post))
      = compute_bbox_from_geoarrow_polygon
          (GeometryCol
             (pre ++ Some (p1 ++ Some (r1 ++ Some (v1 ++ v2) :: r2) :: p2)
                  :: post)).
Proof.
  apply (malformed_vertex_raises [sample_cell; malformed_cell] 1
           malformed_cell {[ "x" := F64.of_nat 2 ]}).
  - reflexivity.
  - apply list_elem_of_further, list_elem_of_here.
  - right. reflexivity.
Defined.

Example malformed_cell_KeyError :
  compute_bbox_from_geoarrow_polygon
    (GeometryCol [sample_cell; malformed_cell])
  = Raise (KeyError "y").
Proof. vm_compute. reflexivity. Qed.

(** ** The augmenter *)

Section augmenter.

Implicit Types (fs : Files) (t : Table) (inp outp : string).

(** With a field [bbox_minx] the call returns at once. *)
Lemma add_bbox_columns_guarded inp outp fs t :
  fs !! inp = Some t → has_column t "bbox_minx" = true →
  add_bbox_columns inp outp fs = (fs, Ok ()).
Proof.
  intros Hfs Hg%bool_decide_eq_true.
  unfold add_bbox_columns, mbind, IO_bind, Arrow.bind, Arrow.read_all.
  rewrite Hfs. by rewrite decide_True.
Qed.

(** Without it the call goes on to the geometry column, the
    computation, the four appends and the write. *)
Lemma add_bbox_columns_unguarded inp outp fs t :
  fs !! inp = Some t → has_column t "bbox_minx" = false →
  add_bbox_columns inp outp fs
  = match
      geom_col ← Arrow.column t "geometry";
      out ← compute_bbox_from_geoarrow_polygon geom_col;
      t1 ← Arrow.append_column t "bbox_minx" (minx out);
      t2 ← Arrow.append_column t1 "bbox_miny" (miny out);
      t3 ← Arrow.append_column t2 "bbox_maxx" (maxx out);
      Arrow.append_column t3 "bbox_maxy" (maxy out)
    with
    | Ok t' => (<[outp:=t']> fs, Ok ())
    | Raise e => (fs, Raise e)
    end.
Proof.
  intros Hfs Hg%bool_decide_eq_false.
  unfold add_bbox_columns, mbind, IO_bind, Arrow.bind, Arrow.read_all.
  rewrite Hfs. rewrite decide_False by done.
  unfold Arrow.lift, Arrow.write_table, result_bind, Py.bind.
  destruct (Arrow.column t "geometry") as [geom_col|]; [|done].
  destruct (compute_bbox_from_geoarrow_polygon geom_col) as [out|]; [|done].
  destruct (Arrow.append_column t _ _) as [t1|]; [|done].
  destruct (Arrow.append_column t1 _ _) as [t2|]; [|done].
  destruct (Arrow.append_column t2 _ _) as [t3|]; [|done].
  by destruct (Arrow.append_column t3 _ _) as [t4|].
Qed.

Lemma append_column_names t name vals t' :
  Arrow.append_column t name vals = Ok t' →
  Arrow.column_names t' = Arrow.column_names t ++ [name]
  ∧ Arrow.num_rows t' = Arrow.num_rows t.
Proof.
  unfold Arrow.append_column, Arrow.column_names. case_decide; [|done].
  intros [= <-]. simpl. by rewrite fmap_app.
Qed.

Lemma append_column_Ok t name vals :
  length vals = Arrow.num_rows t →
  Arrow.append_column t name vals
  = Ok (mkTable (Arrow.num_rows t)
                (Arrow.columns t ++ [(name, Float64Col vals)])).
Proof. intros H. unfold Arrow.append_column. by rewrite decide_True. Qed.

(** Arrays of the table's length are appended without complaint. *)
Lemma append_four t out :
  length (minx out) = Arrow.num_rows t →
  length (miny out) = Arrow.num_rows t →
  length (maxx out) = Arrow.num_rows t →
  length (maxy out) = Arrow.num_rows t →
  (t1 ← Arrow.append_column t "bbox_minx" (minx out);
   t2 ← Arrow.append_column t1 "bbox_miny" (miny out);
   t3 ← Arrow.append_column t2 "bbox_maxx" (maxx out);
   Arrow.append_column t3 "bbox_maxy" (maxy out))
  = Ok (with_bbox t out).
Proof.
  intros H1 H2 H3 H4.
  do 3 (rewrite append_column_Ok, bind_Ok by done).
  rewrite append_column_Ok by done.
  unfold with_bbox. simpl. by rewrite <- !app_assoc.
Qed.

(** What four appends make of the field names, when they succeed. *)
Lemma append_four_names t out t' :
  (t1 ← Arrow.append_column t "bbox_minx" (minx out);
   t2 ← Arrow.append_column t1 "bbox_miny" (miny out);
   t3 ← Arrow.append_column t2 "bbox_maxx" (maxx out);
   Arrow.append_column t3 "bbox_maxy" (maxy out))
  = Ok t' →
  Arrow.column_names t' = Arrow.column_names t ++ bbox_names.
Proof.
  intros (t1 & [H1 _]%append_column_names
          & (t2 & [H2 _]%append_column_names
             & (t3 & [H3 _]%append_column_names
                & [H4 _]%append_column_names)%bind_inv_Ok)%bind_inv_Ok
         )%bind_inv_Ok.
  rewrite H4, H3, H2, H1. by rewrite <- !app_assoc.
Qed.

Lemma column_valid t name col :
  table_valid t = true → Arrow.column t name = Ok col →
  Arrow.len col = Arrow.num_rows t.
Proof.
  unfold table_valid, Arrow.column. rewrite forallb_forall. intros Hv.
  destruct (filter _ _) as [|nc [|]] eqn:E; try done. intros [= <-].
  apply Nat.eqb_eq, Hv, list_elem_of_In.
  eapply (list_elem_of_filter (λ nc, nc.1 = name)).
  rewrite E. apply list_elem_of_here.
Qed.

(** A well-formed table with one geometry column on which the
    computation returns is written with the four columns appended. *)
Lemma add_bbox_columns_appends inp outp fs t geom_col out :
  fs !! inp = Some t → has_column t "bbox_minx" = false →
  table_valid t = true →
  Arrow.column t "geometry" = Ok geom_col →
  compute_bbox_from_geoarrow_polygon geom_col = Ok out →
  add_bbox_columns inp outp fs = (<[outp:=with_bbox t out]> fs, Ok ()).
Proof.
  intros Hfs Hg Hv Hcol Hout.
  rewrite (add_bbox_columns_unguarded _ _ _ _ Hfs Hg).
  rewrite Hcol, bind_Ok, Hout, bind_Ok.
  destruct (compute_Ok_lengths _ _ Hout) as (H1 & H2 & H3 & H4).
  rewrite (column_valid _ _ _ Hv Hcol) in H1, H2, H3, H4.
  by rewrite append_four.
Qed.

Lemma has_bbox_columns_minx t :
  has_bbox_columns t = true → has_column t "bbox_minx" = true.
Proof.
  unfold has_bbox_columns, bbox_names. simpl.
  by intros [? _]%andb_true_iff.
Qed.

(** C7. When the four bbox names are already fields of the input
    table, the call returns without an exception and leaves every
    file as it was: nothing is appended and nothing is written. *)
Theorem augment_noop_when_present inp outp fs t :
  fs !! inp = Some t →
  has_bbox_columns t = true →
  add_bbox_columns inp outp fs = (fs, Ok ()).
Proof.
  intros Hfs Hall.
  eapply add_bbox_columns_guarded; eauto using has_bbox_columns_minx.
Qed.


Lemma augment_rerun_on_output inp outp fs fs' t :
  fs !! inp = Some t → has_column t "bbox_minx" = false →
  add_bbox_columns inp outp fs = (fs', Ok ()) →
  ∀ outp', add_bbox_columns outp outp' fs' = (fs', Ok ()).
Proof.
  intros Hfs Hg H outp'.
  rewrite (add_bbox_columns_unguarded _ _ _ _ Hfs Hg) in H.
  destruct (_ ≫= _) as [t'|e] eqn:E in H; [|done].
  injection H as <-.
  apply (add_bbox_columns_guarded _ _ _ t').
  - apply lookup_insert_eq.
  - apply bind_inv_Ok in E as (geom_col & _ & E).
    apply bind_inv_Ok in E as (out & _ & E).
    apply append_four_names in E.
    apply bool_decide_eq_true. rewrite E.
    apply elem_of_app. right. apply list_elem_of_here.
Qed.

End augmenter.

Lemma augment_noop_when_present_witness :
  add_bbox_columns "data/current.arrow" "data/out.arrow"
    {[ "data/current.arrow" := augmented_table ]}
  = ({[ "data/current.arrow" := augmented_table ]}, Ok ()).
Proof.
  apply (augment_noop_when_present _ _ _ augmented_table).
  - reflexivity.
  - vm_compute. reflexivity.
Defined.

Example augment_plain_table_to_output :
  add_bbox_columns "data/current.arrow" "data/out.arrow"
    {[ "data/current.arrow" := plain_table ]}
  = ({[ "data/current.arrow" := plain_table;
        "data/out.arrow" := augmented_table ]}, Ok ()).
Proof.
  rewrite (add_bbox_columns_appends _ _ _ plain_table
             (GeometryCol sample_column) sample_out).
  - reflexivity.
  - reflexivity.
  - vm_compute. reflexivity.
  - vm_compute. reflexivity.
  - reflexivity.
  - vm_compute. reflexivity.
Qed.

Section guard.

Implicit Types (fs : Files) (t : Table) (inp outp : string).

(** C8, as the code has it. When the input table has no field named
    [geometry] and no field named [bbox_minx], the call raises the
    lookup's [KeyError] and leaves every file as it was. *)
Theorem missing_geometry_raises inp outp fs t :
  fs !! inp = Some t →
  has_column t "geometry" = false →
  has_column t "bbox_minx" = false →
  add_bbox_columns inp outp fs = (fs, Raise (KeyError "geometry")).
Proof.
  intros Hfs Hgeo Hg.
  rewrite (add_bbox_columns_unguarded _ _ _ _ Hfs Hg).
  assert (Arrow.column t "geometry" = Raise (KeyError "geometry")) as ->;
    [|done].
  unfold Arrow.column.
  destruct (filter _ _) as [|[name col] rest] eqn:E; [done|].
  apply bool_decide_eq_false in Hgeo. exfalso. apply Hgeo.
  assert ((name, col) ∈ filter (λ nc, nc.1 = "geometry") (Arrow.columns t))
    as [Hname Hin]%list_elem_of_filter
    by (rewrite E; apply list_elem_of_here).
  simpl in Hname. subst name. unfold Arrow.column_names.
  apply list_elem_of_fmap. by exists ("geometry", col).
Qed.

(** C9, as the code has it. When one of [bbox_miny], [bbox_maxx],
    [bbox_maxy] is a field of the input table and [bbox_minx] is not,
    the call does not return at the guard: it goes on to the geometry
    column and the computation. An exception of the lookup or of the
    computation reaches the caller and no file is changed. When the
    table has one geometry column, the computation on it returns, every
    column has one value per row and the output path is not the input
    path, the table is written with the four bbox columns after all
    the columns it had, so that a name already there is there twice. *)
Theorem guard_tests_minx_only inp outp fs t :
  fs !! inp = Some t →
  has_other_bbox_column t = true →
  has_column t "bbox_minx" = false →
  (∀ e, Arrow.column t "geometry" = Raise e →
     add_bbox_columns inp outp fs = (fs, Raise e))
  ∧ (∀ geom_col e,
       Arrow.column t "geometry" = Ok geom_col →
       compute_bbox_from_geoarrow_polygon geom_col = Raise e →
       add_bbox_columns inp outp fs = (fs, Raise e))
  ∧ (∀ geom_col out,
       Arrow.column t "geometry" = Ok geom_col →
       compute_bbox_from_geoarrow_polygon geom_col = Ok out →
       table_valid t = true →
       inp ≠ outp →
       add_bbox_columns inp outp fs = (<[outp:=with_bbox t out]> fs, Ok ())
       ∧ Arrow.column_names (with_bbox t out)
         = Arrow.column_names t ++ bbox_names).
Proof.
  intros Hfs _ Hg. split; [|split].
  - intros e Hcol.
    by rewrite (add_bbox_columns_unguarded _ _ _ _ Hfs Hg), Hcol.
  - intros geom_col e Hcol Hout.
    by rewrite (add_bbox_columns_unguarded _ _ _ _ Hfs Hg), Hcol, bind_Ok,
               Hout.
  - intros geom_col out Hcol Hout Hv _. split.
    + by eapply add_bbox_columns_appends.
    + unfold with_bbox, Arrow.column_names. simpl. by rewrite fmap_app.
Qed.

End guard.

Lemma missing_geometry_raises_witness :
  add_bbox_columns "data/current.arrow" "data/out.arrow"
    {[ "data/current.arrow" := attribute_table ]}
  = ({[ "data/current.arrow" := attribute_table ]},
     Raise (KeyError "geometry")).
Proof.
  apply (missing_geometry_raises _ _ _ attribute_table).
  - reflexivity.
  - vm_compute. reflexivity.
  - vm_compute. reflexivity.
Defined.

(** C8 fails as stated on a table that has [bbox_minx] and no geometry
    column: the guard returns before the geometry column is asked for,
    and no exception reaches the caller. *)
Lemma missing_geometry_unnoticed :
  has_column bbox_only_table "geometry" = false
  ∧ add_bbox_columns "data/current.arrow" "data/out.arrow"
      {[ "data/current.arrow" := bbox_only_table ]}
    = ({[ "data/current.arrow" := bbox_only_table ]}, Ok ()).
Proof.
  split; [vm_compute; reflexivity|].
  apply (add_bbox_columns_guarded _ _ _ bbox_only_table);
    [reflexivity | vm_compute; reflexivity].
Qed.

Lemma guard_tests_minx_only_witness :
  let fs : Files := {[ "data/current.arrow" := half_augmented_table ]} in
  (∀ e, Arrow.column half_augmented_table "geometry" = Raise e →
     add_bbox_columns "data/current.arrow" "data/out.arrow" fs
     = (fs, Raise e))
  ∧ (∀ geom_col e,
       Arrow.column half_augmented_table "geometry" = Ok geom_col →
       compute_bbox_from_geoarrow_polygon geom_col = Raise e →
       add_bbox_columns "data/current.arrow" "data/out.arrow" fs
       = (fs, Raise e))
  ∧ (∀ geom_col out,
       Arrow.column half_augmented_table "geometry" = Ok geom_col →
       compute_bbox_from_geoarrow_polygon geom_col = Ok out →
       table_valid half_augmented_table = true →
       "data/current.arrow" ≠ "data/out.arrow" →
       add_bbox_columns "data/current.arrow" "data/out.arrow" fs
       = (<["data/out.arrow":=with_bbox half_augmented_table out]> fs, Ok ())
       ∧ Arrow.column_names (with_bbox half_augmented_table out)
         = Arrow.column_names half_augmented_table ++ bbox_names).
Proof.
  apply (guard_tests_minx_only _ _ _ half_augmented_table).
  - reflexivity.
  - vm_compute. reflexivity.
  - vm_compute. reflexivity.
Defined.

(** C9 fails as stated on a table that has [bbox_miny], no [bbox_minx]
    and no geometry column: the guard is passed, the lookup of the
    geometry column raises, and nothing is appended or written. *)
Lemma guard_passed_nothing_appended :
  has_other_bbox_column bbox_miny_only_table = true
  ∧ has_column bbox_miny_only_table "bbox_minx" = false
  ∧ table_valid bbox_miny_only_table = true
  ∧ add_bbox_columns "data/current.arrow" "data/out.arrow"
      {[ "data/current.arrow" := bbox_miny_only_table ]}
    = ({[ "data/current.arrow" := bbox_miny_only_table ]},
       Raise (KeyError "geometry")).
Proof.
  do 3 (split; [vm_compute; reflexivity|]).
  rewrite (add_bbox_columns_unguarded _ _ _ bbox_miny_only_table);
    [done | reflexivity | vm_compute; reflexivity].
Qed.

(** The table the call writes then has [bbox_miny] twice. *)
Example half_augmented_result :
  let fs : Files := {[ "data/current.arrow" := half_augmented_table ]} in
  add_bbox_columns "data/current.arrow" "data/out.arrow" fs
  = (<["data/out.arrow":=with_bbox half_augmented_table sample_out]> fs,
     Ok ())
  ∧ Arrow.column_names (with_bbox half_augmented_table sample_out)
    = ["bbox_miny"; "geometry";
       "bbox_minx"; "bbox_miny"; "bbox_maxx"; "bbox_maxy"].
Proof.
  split; [|reflexivity].
  apply (add_bbox_columns_appends _ _ _ half_augmented_table
           (GeometryCol sample_column)).
  - reflexivity.
  - vm_compute. reflexivity.
  - vm_compute. reflexivity.
  - reflexivity.
  - vm_compute. reflexivity.
Qed.


(** * Further properties of the code *)

(** ** When the computation returns *)

Section exceptions.

Implicit Types (cells : list Cell) (cell : Cell).

Lemma forallb_cell_has_xy_false cells :
  forallb cell_has_xy cells = false →
  ∃ cell, cell ∈ cells ∧ cell_has_xy cell = false.
Proof.
  induction cells as [|c cells IH]; [done|]. simpl.
  intros [H|H]%andb_false_iff.
  - exists c. split; [apply list_elem_of_here | done].
  - destruct (IH H) as (cell & Hin & Hbad).
    exists cell. split; [by apply list_elem_of_further | done].
Qed.

Lemma compute_Raise_KeyError cells e :
  compute_bbox_from_geoarrow_polygon (GeometryCol cells) = Raise e →
  e = KeyError "x" ∨ e = KeyError "y".
Proof.
  rewrite compute_rows. simpl.
  destruct (rows_bbox (cell_as_py <$> cells)) as [bs|e'] eqn:E; [done|].
  intros [= ->].
  apply rows_bbox_Raise in E
    as (rows1 & polygon & rows2 & Hsplit & _ & Hraise).
  apply fmap_app_inv in Hsplit as (cs1 & cs2 & _ & Hcs2 & _).
  symmetry in Hcs2. apply fmap_cons_inv in Hcs2 as (c & cs3 & -> & _ & _).
  by apply row_bbox_Raise in Hraise as [_ ?].
Qed.

Lemma compute_Ok_has_xy cells out :
  compute_bbox_from_geoarrow_polygon (GeometryCol cells) = Ok out →
  forallb cell_has_xy cells = true.
Proof.
  rewrite compute_rows. simpl. intros (bs & Hbs & _)%bind_inv_Ok.
  apply rows_bbox_Forall2, Forall2_fmap_l in Hbs.
  apply forallb_cell_has_xy, Forall_forall. intros cell Hcell.
  apply list_elem_of_lookup in Hcell as [i Hi].
  destruct (Forall2_lookup_l _ _ _ _ _ Hbs Hi) as (b & _ & Hb).
  destruct (cell_has_xy cell) eqn:Hxy; [done|].
  destruct (row_bbox_KeyError _ Hxy) as (key & _ & Hraise). congruence.
Qed.

(** X1. On a geometry column whose vertices hold a float in every
    field they have (a coordinate that is null or not a number is
    outside the vertex type), the function returns exactly when every
    usable vertex of every row has both fields [x] and [y]; otherwise
    it raises [KeyError] for one of the two names. On such a column
    neither the row loop nor the stores raise [IndexError], and [min]
    and [max] never raise [ValueError] on an empty list. *)
Theorem compute_returns_or_KeyError cells :
  (forallb cell_has_xy cells = true
   ∧ ∃ out, compute_bbox_from_geoarrow_polygon (GeometryCol cells) = Ok out)
  ∨ (forallb cell_has_xy cells = false
     ∧ ∃ key, (key = "x" ∨ key = "y")
         ∧ compute_bbox_from_geoarrow_polygon (GeometryCol cells)
           = Raise (KeyError key)).
Proof.
  destruct (compute_bbox_from_geoarrow_polygon (GeometryCol cells))
    as [out|e] eqn:E.
  - left. split; [by eapply compute_Ok_has_xy | by exists out].
  - right. split.
    + destruct (forallb cell_has_xy cells) eqn:Hwf; [|done].
      destruct (compute_rowwise _ Hwf) as (bs & Hbs & _). congruence.
    + destruct (compute_Raise_KeyError _ _ E) as [-> | ->]; eauto.
Qed.

Lemma visit_vertex_missing (acc : Coords) (d : Vertex) :
  has_xy d = false →
  visit_vertex acc (Some d) = Raise (KeyError (missing_field d)).
Proof.
  intros Hbad. unfold visit_vertex, missing_field, Py.getitem.
  destruct (d !! "x") as [x|] eqn:Hx; [|done].
  destruct (d !! "y") as [y|] eqn:Hy; [|done].
  assert (has_xy d = true) by (apply has_xy_lookup; eauto). congruence.
Qed.

(** X2. The exception names the field that the first malformed vertex
    in visiting order lacks, in the first row that has one: [x] when the
    vertex lacks [x] (whether or not it has [y]), [y] otherwise. Rows
    and vertices after it are not looked at. *)
Theorem first_missing_field_decides
    (pre post : list Cell) cell (vs1 vs2 : list Vertex) (d : Vertex) :
  forallb cell_has_xy pre = true →
  cell_vertices cell = vs1 ++ d :: vs2 →
  forallb has_xy vs1 = true →
  has_xy d = false →
  compute_bbox_from_geoarrow_polygon (GeometryCol (pre ++ cell :: post))
  = Raise (KeyError (missing_field d)).
Proof.
  intros Hpre Hvs Hvs1 Hd. rewrite compute_rows. simpl.
  rewrite fmap_app, fmap_cons, rows_bbox_app.
  destruct (rows_bbox_total (cell_as_py <$> pre)) as [bs1 ->].
  { apply Forall_fmap. apply forallb_cell_has_xy in Hpre.
    eapply Forall_impl; [exact Hpre|]. intros c Hc. by apply row_bbox_total. }
  rewrite bind_Ok, rows_bbox_cons.
  assert (row_bbox (cell_as_py cell) = Raise (KeyError (missing_field d)))
    as ->; [|done].
  destruct cell as [polygon|]; [|by destruct vs1]. simpl in *.
  rewrite collect_coords_flat, Hvs, for_each_app.
  rewrite (for_each_dict_Ok _ _ Hvs1), bind_Ok, for_each_cons.
  by rewrite visit_vertex_missing.
Qed.

End exceptions.

Lemma first_missing_field_decides_witness :
  compute_bbox_from_geoarrow_polygon
    (GeometryCol ([sample_cell] ++ malformed_cell :: [sample_cell]))
  = Raise (KeyError (missing_field {[ "x" := F64.of_nat 2 ]})).
Proof.
  apply (first_missing_field_decides [sample_cell] [sample_cell]
           malformed_cell [vertex (F64.of_nat 1) (F64.of_nat 1)] []).
  - vm_compute. reflexivity.
  - reflexivity.
  - vm_compute. reflexivity.
  - vm_compute. reflexivity.
Defined.

(** ** NaN among the coordinates *)

Section nan.

Implicit Types (x best : F64.t) (rest : list F64.t) (cell : Cell).

Lemma ltb_nan_l a b : F64.is_nan a = true → F64.ltb a b = false.
Proof. by destruct a, b. Qed.

Lemma ltb_nan_r a b : F64.is_nan b = true → F64.ltb a b = false.
Proof. by destruct a as [[]|[]| |[]], b. Qed.

Lemma ltb_not_nan a b :
  F64.ltb a b = true → F64.is_nan a = false ∧ F64.is_nan b = false.
Proof. intros H%ltb_leb. by apply leb_not_nan. Qed.

(** Whether the result is NaN is decided by the first argument. *)
Lemma foldl_min_step_is_nan rest x :
  F64.is_nan (foldl Py.min_step x rest) = F64.is_nan x.
Proof.
  revert x. induction rest as [|z rest IH]; intros x; [done|]. simpl.
  rewrite IH. unfold Py.min_step. destruct (F64.ltb z x) eqn:E; [|done].
  apply ltb_not_nan in E as [-> ->]. done.
Qed.

Lemma foldl_max_step_is_nan rest x :
  F64.is_nan (foldl Py.max_step x rest) = F64.is_nan x.
Proof.
  revert x. induction rest as [|z rest IH]; intros x; [done|]. simpl.
  rewrite IH, max_step_ltb. destruct (F64.ltb x z) eqn:E; [|done].
  apply ltb_not_nan in E as [-> ->]. done.
Qed.

(** A NaN after the first argument is passed over. *)
Lemma foldl_min_step_filter rest x :
  foldl Py.min_step x rest
  = foldl Py.min_step x (filter (λ a, F64.is_nan a = false) rest).
Proof.
  revert x. induction rest as [|z rest IH]; intros x; [done|].
  destruct (F64.is_nan z) eqn:Hz.
  - rewrite filter_cons_False by congruence. simpl.
    unfold Py.min_step at 2. rewrite (ltb_nan_l _ _ Hz). apply IH.
  - rewrite filter_cons_True by done. simpl. apply IH.
Qed.

Lemma foldl_max_step_filter rest x :
  foldl Py.max_step x rest
  = foldl Py.max_step x (filter (λ a, F64.is_nan a = false) rest).
Proof.
  revert x. induction rest as [|z rest IH]; intros x; [done|].
  destruct (F64.is_nan z) eqn:Hz.
  - rewrite filter_cons_False by congruence. simpl.
    rewrite (max_step_ltb x z), (ltb_nan_r _ _ Hz). apply IH.
  - rewrite filter_cons_True by done. simpl. apply IH.
Qed.

Lemma min_max_among_numbers rest x mn mx :
  F64.is_nan x = false →
  Py.min (x :: rest) = Ok mn → Py.max (x :: rest) = Ok mx →
  ∀ y, y ∈ x :: rest → F64.is_nan y = false →
    F64.leb mn y = true ∧ F64.leb y mx = true.
Proof.
  intros Hx [= <-] [= <-] y Hy Hny.
  rewrite foldl_min_step_filter, foldl_max_step_filter.
  assert (Forall (λ a, F64.is_nan a = false)
            (filter (λ a, F64.is_nan a = false) rest)) as Hall.
  { apply Forall_forall. by intros a [? _]%list_elem_of_filter. }
  assert (y ∈ x :: filter (λ a, F64.is_nan a = false) rest) as Hy'.
  { apply elem_of_cons in Hy as [->|Hy]; [apply list_elem_of_here|].
    apply list_elem_of_further, list_elem_of_filter. done. }
  split; [by apply foldl_min_step_le | by apply foldl_max_step_ge].
Qed.

Lemma coords_of_cons key (d : Vertex) (vs : list Vertex) a :
  d !! key = Some a → coords_of key (d :: vs) = a :: coords_of key vs.
Proof. intros H. unfold coords_of. simpl. by rewrite H. Qed.

(** X3. In a row with a usable vertex, the stored minX and maxX are NaN
    exactly when the x of the first usable vertex, in visiting order,
    is NaN; the stored minY and maxY are NaN exactly when its y is.
    A NaN in a later vertex never reaches the result. *)
Theorem nan_iff_first_vertex
    (cells : list Cell) i cell (d : Vertex) (vs : list Vertex) x0 y0 :
  forallb cell_has_xy cells = true →
  cells !! i = Some cell →
  cell_vertices cell = d :: vs →
  d !! "x" = Some x0 → d !! "y" = Some y0 →
  ∃ out b,
    compute_bbox_from_geoarrow_polygon (GeometryCol cells) = Ok out
    ∧ row_at out i = Some b
    ∧ F64.is_nan (bminx b) = F64.is_nan x0
    ∧ F64.is_nan (bmaxx b) = F64.is_nan x0
    ∧ F64.is_nan (bminy b) = F64.is_nan y0
    ∧ F64.is_nan (bmaxy b) = F64.is_nan y0.
Proof.
  intros Hwf Hi Hvs Hx Hy.
  destruct (compute_row _ _ _ Hwf Hi) as (out & b & Hout & Hrow & Hb).
  exists out, b. split; [done|]. split; [done|].
  assert (cell_has_xy cell = true) as Hxy.
  { apply forallb_cell_has_xy in Hwf. eapply Forall_lookup_1 in Hwf; eauto. }
  destruct (row_bbox_tight cell) as (b' & Hb' & H1 & H2 & H3 & H4);
    [done | rewrite Hvs; simpl; lia |].
  assert (b' = b) as -> by congruence.
  unfold row_xs, row_ys in *. rewrite Hvs in *.
  rewrite (coords_of_cons _ _ _ _ Hx) in H1, H3.
  rewrite (coords_of_cons _ _ _ _ Hy) in H2, H4.
  injection H1 as <-. injection H2 as <-.
  injection H3 as <-. injection H4 as <-.
  by rewrite !foldl_min_step_is_nan, !foldl_max_step_is_nan.
Qed.

(** X4. When the x of the first usable vertex of a row is not NaN, the
    stored minX and maxX bound the x of every usable vertex of the row
    whose x is not NaN, whatever NaN the later vertices hold; likewise
    for y. *)
Theorem bounds_among_numbers
    (cells : list Cell) i cell (d : Vertex) (vs : list Vertex) x0 y0 :
  forallb cell_has_xy cells = true →
  cells !! i = Some cell →
  cell_vertices cell = d :: vs →
  d !! "x" = Some x0 → d !! "y" = Some y0 →
  ∃ out b,
    compute_bbox_from_geoarrow_polygon (GeometryCol cells) = Ok out
    ∧ row_at out i = Some b
    ∧ (F64.is_nan x0 = false →
       ∀ d' x, d' ∈ cell_vertices cell → d' !! "x" = Some x →
         F64.is_nan x = false →
         F64.leb (bminx b) x = true ∧ F64.leb x (bmaxx b) = true)
    ∧ (F64.is_nan y0 = false →
       ∀ d' y, d' ∈ cell_vertices cell → d' !! "y" = Some y →
         F64.is_nan y = false →
         F64.leb (bminy b) y = true ∧ F64.leb y (bmaxy b) = true).
Proof.
  intros Hwf Hi Hvs Hx Hy.
  destruct (compute_row _ _ _ Hwf Hi) as (out & b & Hout & Hrow & Hb).
  exists out, b. split; [done|]. split; [done|].
  assert (cell_has_xy cell = true) as Hxy.
  { apply forallb_cell_has_xy in Hwf. eapply Forall_lookup_1 in Hwf; eauto. }
  destruct (row_bbox_tight cell) as (b' & Hb' & H1 & H2 & H3 & H4);
    [done | rewrite Hvs; simpl; lia |].
  assert (b' = b) as -> by congruence.
  assert (row_xs cell = x0 :: coords_of "x" vs) as Exs.
  { unfold row_xs. by rewrite Hvs, (coords_of_cons _ _ _ _ Hx). }
  assert (row_ys cell = y0 :: coords_of "y" vs) as Eys.
  { unfold row_ys. by rewrite Hvs, (coords_of_cons _ _ _ _ Hy). }
  split.
  - intros Hn d' x Hd' Hx' Hnx. rewrite Exs in H1, H3.
    apply (min_max_among_numbers _ _ _ _ Hn H1 H3); [|done].
    rewrite <- Exs. apply elem_of_coords. eauto.
  - intros Hn d' y Hd' Hy' Hny. rewrite Eys in H2, H4.
    apply (min_max_among_numbers _ _ _ _ Hn H2 H4); [|done].
    rewrite <- Eys. apply elem_of_coords. eauto.
Qed.

End nan.

Lemma nan_iff_first_vertex_witness :
  ∃ out b,
    compute_bbox_from_geoarrow_polygon
      (GeometryCol [sample_cell; nan_later_cell]) = Ok out
    ∧ row_at out 1 = Some b
    ∧ F64.is_nan (bminx b) = F64.is_nan (F64.of_nat 2)
    ∧ F64.is_nan (bmaxx b) = F64.is_nan (F64.of_nat 2)
    ∧ F64.is_nan (bminy b) = F64.is_nan (F64.of_nat 3)
    ∧ F64.is_nan (bmaxy b) = F64.is_nan (F64.of_nat 3).
Proof.
  apply (nan_iff_first_vertex [sample_cell; nan_later_cell] 1 nan_later_cell
           (vertex (F64.of_nat 2) (F64.of_nat 3))
           [vertex F64.nan (F64.of_nat 5);
            vertex (F64.of_nat 1) (F64.of_nat 4)]).
  - vm_compute. reflexivity.
  - reflexivity.
  - reflexivity.
  - reflexivity.
  - reflexivity.
Defined.

Lemma bounds_among_numbers_witness :
  ∃ out b,
    compute_bbox_from_geoarrow_polygon
      (GeometryCol [sample_cell; nan_later_cell]) = Ok out
    ∧ row_at out 1 = Some b
    ∧ (F64.is_nan (F64.of_nat 2) = false →
       ∀ d' x, d' ∈ cell_vertices nan_later_cell → d' !! "x" = Some x →
         F64.is_nan x = false →
         F64.leb (bminx b) x = true ∧ F64.leb x (bmaxx b) = true)
    ∧ (F64.is_nan (F64.of_nat 3) = false →
       ∀ d' y, d' ∈ cell_vertices nan_later_cell → d' !! "y" = Some y →
         F64.is_nan y = false →
         F64.leb (bminy b) y = true ∧ F64.leb y (bmaxy b) = true).
Proof.
  apply (bounds_among_numbers [sample_cell; nan_later_cell] 1 nan_later_cell
           (vertex (F64.of_nat 2) (F64.of_nat 3))
           [vertex F64.nan (F64.of_nat 5);
            vertex (F64.of_nat 1) (F64.of_nat 4)]).
  - vm_compute. reflexivity.
  - reflexivity.
  - reflexivity.
  - reflexivity.
  - reflexivity.
Defined.

Example nan_later_cell_bbox :
  compute_bbox_from_geoarrow_polygon (GeometryCol [nan_later_cell])
  = Ok (arrays_of [bbox_of_nat 1 3 2 5]).
Proof. vm_compute. reflexivity. Qed.

(** ** Which vertices a row holds *)

Section vertex_sets.

Implicit Types (xs ys : list F64.t) (vs : list Vertex) (cell : Cell).

Lemma coords_of_subseteq key vs1 vs2 :
  vs1 ⊆ vs2 → coords_of key vs1 ⊆ coords_of key vs2.
Proof.
  intros H a (d & Hd & Ha)%elem_of_coords. apply elem_of_coords. eauto.
Qed.

Lemma has_xy_subseteq vs1 vs2 :
  vs1 ⊆ vs2 → forallb has_xy vs2 = true → forallb has_xy vs1 = true.
Proof.
  rewrite !forallb_forall. intros H H2 d Hd%list_elem_of_In.
  by apply H2, list_elem_of_In, H.
Qed.

Lemma no_nan_subseteq xs ys : xs ⊆ ys → no_nan ys = true → no_nan xs = true.
Proof.
  rewrite !no_nan_Forall, !Forall_forall. intros H Hys a Ha. by apply Hys, H.
Qed.

Lemma min_subseteq xs ys m m' :
  xs ⊆ ys → no_nan ys = true →
  Py.min xs = Ok m → Py.min ys = Ok m' → F64.leb m' m = true.
Proof.
  intros H Hn Hm Hm'. eapply min_le; eauto. by apply H, min_elem.
Qed.

Lemma max_subseteq xs ys m m' :
  xs ⊆ ys → no_nan ys = true →
  Py.max xs = Ok m → Py.max ys = Ok m' → F64.leb m m' = true.
Proof.
  intros H Hn Hm Hm'. eapply max_ge; eauto. by apply H, max_elem.
Qed.

Lemma forallb_cell_has_xy_insert (cells : list Cell) i cell :
  forallb cell_has_xy cells = true → cell_has_xy cell = true →
  forallb cell_has_xy (<[i:=cell]> cells) = true.
Proof.
  rewrite !forallb_cell_has_xy. intros H Hc. by apply Forall_insert.
Qed.

(** Both columns are computed, and row [i] of each is the result of
    its cell. *)
Lemma bbox_grows_with_vertices_aux (cells : list Cell) i cell1 cell2 :
  forallb cell_has_xy cells = true →
  cells !! i = Some cell1 →
  cell_has_xy cell2 = true →
  ∃ out1 b1 out2 b2,
    compute_bbox_from_geoarrow_polygon (GeometryCol cells) = Ok out1
    ∧ row_at out1 i = Some b1
    ∧ compute_bbox_from_geoarrow_polygon (GeometryCol (<[i:=cell2]> cells))
      = Ok out2
    ∧ row_at out2 i = Some b2
    ∧ row_bbox (cell_as_py cell1) = Ok b1
    ∧ row_bbox (cell_as_py cell2) = Ok b2.
Proof.
  intros Hwf Hi Hxy2.
  destruct (compute_row _ _ _ Hwf Hi) as (out1 & b1 & Hout1 & Hrow1 & Hb1).
  pose proof (forallb_cell_has_xy_insert _ i _ Hwf Hxy2) as Hwf2.
  assert (<[i:=cell2]> cells !! i = Some cell2) as Hi2.
  { apply list_lookup_insert_eq. by eapply lookup_lt_Some. }
  destruct (compute_row _ _ _ Hwf2 Hi2) as (out2 & b2 & Hout2 & Hrow2 & Hb2).
  by exists out1, b1, out2, b2.
Qed.

(** X5. Adding vertices to a row that has at least one usable vertex
    can only widen its box: when the usable vertices of such a row are
    among those of a second row that holds no NaN, the second row's
    minima are at most the first row's and its maxima at least the
    first row's. *)
Theorem bbox_grows_with_vertices (cells : list Cell) i cell1 cell2 :
  forallb cell_has_xy cells = true →
  cells !! i = Some cell1 →
  cell_has_xy cell2 = true →
  cell_vertices cell1 ⊆ cell_vertices cell2 →
  0 < length (cell_vertices cell1) →
  no_nan (row_xs cell2) = true → no_nan (row_ys cell2) = true →
  ∃ out1 b1 out2 b2,
    compute_bbox_from_geoarrow_polygon (GeometryCol cells) = Ok out1
    ∧ row_at out1 i = Some b1
    ∧ compute_bbox_from_geoarrow_polygon (GeometryCol (<[i:=cell2]> cells))
      = Ok out2
    ∧ row_at out2 i = Some b2
    ∧ F64.leb (bminx b2) (bminx b1) = true
    ∧ F64.leb (bminy b2) (bminy b1) = true
    ∧ F64.leb (bmaxx b1) (bmaxx b2) = true
    ∧ F64.leb (bmaxy b1) (bmaxy b2) = true.
Proof.
  intros Hwf Hi Hxy2 Hsub Hlen Hnx Hny.
  destruct (compute_row _ _ _ Hwf Hi) as (out1 & b1 & Hout1 & Hrow1 & Hb1).
  pose proof (forallb_cell_has_xy_insert _ i _ Hwf Hxy2) as Hwf2.
  assert (<[i:=cell2]> cells !! i = Some cell2) as Hi2.
  { apply list_lookup_insert_eq. by eapply lookup_lt_Some. }
  destruct (compute_row _ _ _ Hwf2 Hi2) as (out2 & b2 & Hout2 & Hrow2 & Hb2).
  exists out1, b1, out2, b2. do 4 (split; [done|]).
  assert (cell_has_xy cell1 = true) as Hxy1.
  { apply forallb_cell_has_xy in Hwf. eapply Forall_lookup_1 in Hwf; eauto. }
  destruct (row_bbox_tight _ Hxy1 Hlen) as (b & Hb & H1 & H2 & H3 & H4).
  assert (b = b1) as -> by congruence.
  assert (0 < length (cell_vertices cell2)) as Hlen2.
  { destruct (cell_vertices cell1) as [|d vs] eqn:E; [simpl in Hlen; lia|].
    assert (d ∈ cell_vertices cell2) as Hd by apply Hsub, list_elem_of_here.
    destruct (cell_vertices cell2); [by apply elem_of_nil in Hd|].
    simpl. lia. }
  destruct (row_bbox_tight _ Hxy2 Hlen2) as (b & Hb' & G1 & G2 & G3 & G4).
  assert (b = b2) as -> by congruence.
  pose proof (coords_of_subseteq "x" _ _ Hsub) as Hsx.
  pose proof (coords_of_subseteq "y" _ _ Hsub) as Hsy.
  split; [by apply (min_subseteq (row_xs cell1) (row_xs cell2))|].
  split; [by apply (min_subseteq (row_ys cell1) (row_ys cell2))|].
  split; [by apply (max_subseteq (row_xs cell1) (row_xs cell2))|].
  by apply (max_subseteq (row_ys cell1) (row_ys cell2)).
Qed.

Lemma min_same_elements xs ys :
  xs ⊆ ys → ys ⊆ xs → no_nan xs = true → mixed_zeros xs = false →
  Py.min xs = Py.min ys.
Proof.
  intros H1 H2 Hn Hmix.
  destruct xs as [|x xs'], ys as [|y ys']; [done| | |].
  - exfalso. apply (not_elem_of_nil y). apply H2, list_elem_of_here.
  - exfalso. apply (not_elem_of_nil x). apply H1, list_elem_of_here.
  - destruct (min_total (x :: xs')) as [m Hm]; [done|].
    destruct (min_total (y :: ys')) as [m' Hm']; [done|].
    rewrite Hm, Hm'. f_equal.
    pose proof (no_nan_subseteq _ _ H2 Hn) as Hn'.
    apply (extremum_unique (x :: xs')); try done.
    + by eapply min_elem.
    + by apply H2, min_elem.
    + by eapply (min_subseteq (y :: ys') (x :: xs')).
    + by eapply (min_subseteq (x :: xs') (y :: ys')).
Qed.

Lemma max_same_elements xs ys :
  xs ⊆ ys → ys ⊆ xs → no_nan xs = true → mixed_zeros xs = false →
  Py.max xs = Py.max ys.
Proof.
  intros H1 H2 Hn Hmix.
  destruct xs as [|x xs'], ys as [|y ys']; [done| | |].
  - exfalso. apply (not_elem_of_nil y). apply H2, list_elem_of_here.
  - exfalso. apply (not_elem_of_nil x). apply H1, list_elem_of_here.
  - destruct (max_total (x :: xs')) as [m Hm]; [done|].
    destruct (max_total (y :: ys')) as [m' Hm']; [done|].
    rewrite Hm, Hm'. f_equal.
    pose proof (no_nan_subseteq _ _ H2 Hn) as Hn'.
    apply (extremum_unique (x :: xs')); try done.
    + by eapply max_elem.
    + by apply H2, max_elem.
    + by eapply (max_subseteq (x :: xs') (y :: ys')).
    + by eapply (max_subseteq (y :: ys') (x :: xs')).
Qed.

Lemma bbox_of_coords_same_elements xs xs' ys ys' :
  xs ⊆ xs' → xs' ⊆ xs → ys ⊆ ys' → ys' ⊆ ys →
  no_nan xs = true → no_nan ys = true →
  mixed_zeros xs = false → mixed_zeros ys = false →
  bbox_of_coords xs ys = bbox_of_coords xs' ys'.
Proof.
  intros Hx1 Hx2 Hy1 Hy2 Hnx Hny Hmx Hmy. unfold bbox_of_coords.
  rewrite (min_same_elements xs xs'), (max_same_elements xs xs'),
          (min_same_elements ys ys'), (max_same_elements ys ys') by done.
  destruct xs as [|x ?], xs' as [|x' ?]; try done.
  - exfalso. apply (not_elem_of_nil x'). apply Hx2, list_elem_of_here.
  - exfalso. apply (not_elem_of_nil x). apply Hx1, list_elem_of_here.
Qed.

(** X6. The box of a row depends on which usable vertices the row
    holds, not on how often each occurs nor where: two rows with the
    same usable vertices, without NaN and without both zeros on an
    axis, give the identical quadruple. So the closing vertex of a
    ring, which repeats its first one, changes nothing. *)
Theorem repeated_vertices_irrelevant cell1 cell2 :
  cell_has_xy cell1 = true →
  cell_vertices cell1 ⊆ cell_vertices cell2 →
  cell_vertices cell2 ⊆ cell_vertices cell1 →
  no_nan (row_xs cell1) = true → no_nan (row_ys cell1) = true →
  mixed_zeros (row_xs cell1) = false → mixed_zeros (row_ys cell1) = false →
  ∀ pre post : list Cell,
    compute_bbox_from_geoarrow_polygon (GeometryCol (pre ++ cell1 :: post))
    = compute_bbox_from_geoarrow_polygon (GeometryCol (pre ++ cell2 :: post)).
Proof.
  intros Hxy H12 H21 Hnx Hny Hmx Hmy pre post.
  apply compute_congr_row.
  pose proof (has_xy_subseteq _ _ H21 Hxy) as Hxy2.
  rewrite !row_bbox_coords by done.
  apply bbox_of_coords_same_elements; try done;
    by apply coords_of_subseteq.
Qed.

(** X8. The box of a row depends on the x and the y of its usable
    vertices in visiting order and on nothing else: not on how the
    vertices are grouped into rings and polygons (a hole counts like an
    exterior ring), not on absent entries, not on any further field of
    a vertex. *)
Theorem grouping_irrelevant cell1 cell2 :
  cell_has_xy cell1 = true → cell_has_xy cell2 = true →
  row_xs cell1 = row_xs cell2 → row_ys cell1 = row_ys cell2 →
  ∀ pre post : list Cell,
    compute_bbox_from_geoarrow_polygon (GeometryCol (pre ++ cell1 :: post))
    = compute_bbox_from_geoarrow_polygon (GeometryCol (pre ++ cell2 :: post)).
Proof.
  intros H1 H2 Hx Hy pre post. apply compute_congr_row.
  by rewrite !row_bbox_coords, Hx, Hy.
Qed.

End vertex_sets.

Lemma bbox_grows_with_vertices_witness :
  ∃ out1 b1 out2 b2,
    compute_bbox_from_geoarrow_polygon (GeometryCol sample_column) = Ok out1
    ∧ row_at out1 0 = Some b1
    ∧ compute_bbox_from_geoarrow_polygon
        (GeometryCol (<[0:=sample_cell]> sample_column)) = Ok out2
    ∧ row_at out2 0 = Some b2
    ∧ F64.leb (bminx b2) (bminx b1) = true
    ∧ F64.leb (bminy b2) (bminy b1) = true
    ∧ F64.leb (bmaxx b1) (bmaxx b2) = true
    ∧ F64.leb (bmaxy b1) (bmaxy b2) = true.
Proof.
  apply (bbox_grows_with_vertices sample_column 0
           (Some [Some [Some [pt 1 1; pt 2 2]]]) sample_cell).
  - vm_compute. reflexivity.
  - reflexivity.
  - vm_compute. reflexivity.
  - apply (bool_decide_unpack _). vm_compute. exact I.
  - vm_compute. lia.
  - vm_compute. reflexivity.
  - vm_compute. reflexivity.
Defined.

Lemma repeated_vertices_irrelevant_witness :
  compute_bbox_from_geoarrow_polygon
    (GeometryCol ([absent_cell] ++ sample_cell :: [hollow_cell]))
  = compute_bbox_from_geoarrow_polygon
      (GeometryCol ([absent_cell] ++ closed_sample_cell :: [hollow_cell])).
Proof.
  refine (repeated_vertices_irrelevant sample_cell closed_sample_cell
            _ _ _ _ _ _ _ [absent_cell] [hollow_cell]).
  - vm_compute. reflexivity.
  - apply (bool_decide_unpack _). vm_compute. exact I.
  - apply (bool_decide_unpack _). vm_compute. exact I.
  - vm_compute. reflexivity.
  - vm_compute. reflexivity.
  - vm_compute. reflexivity.
  - vm_compute. reflexivity.
Defined.

Lemma grouping_irrelevant_witness :
  compute_bbox_from_geoarrow_polygon
    (GeometryCol ([absent_cell] ++ sample_cell :: [hollow_cell]))
  = compute_bbox_from_geoarrow_polygon
      (GeometryCol ([absent_cell] ++ flat_sample_cell :: [hollow_cell])).
Proof.
  refine (grouping_irrelevant sample_cell flat_sample_cell
            _ _ _ _ [absent_cell] [hollow_cell]).
  - vm_compute. reflexivity.
  - vm_compute. reflexivity.
  - vm_compute. reflexivity.
  - vm_compute. reflexivity.
Defined.

Section numeric_equality.

Implicit Types (cells : list Cell) (cell : Cell).

(** X7. Two rows with the same usable vertices, at least one and none
    of them with a NaN coordinate, give quadruples that are equal under
    [==], in whatever order and however often the vertices occur: the
    order of visit can change the sign of a zero result and nothing
    else. *)
Theorem same_vertices_equal_numbers cells i cell1 cell2 :
  forallb cell_has_xy cells = true →
  cells !! i = Some cell1 →
  cell_vertices cell1 ⊆ cell_vertices cell2 →
  cell_vertices cell2 ⊆ cell_vertices cell1 →
  0 < length (cell_vertices cell1) →
  no_nan (row_xs cell1) = true → no_nan (row_ys cell1) = true →
  ∃ out1 b1 out2 b2,
    compute_bbox_from_geoarrow_polygon (GeometryCol cells) = Ok out1
    ∧ row_at out1 i = Some b1
    ∧ compute_bbox_from_geoarrow_polygon (GeometryCol (<[i:=cell2]> cells))
      = Ok out2
    ∧ row_at out2 i = Some b2
    ∧ F64.eqb (bminx b1) (bminx b2) = true
    ∧ F64.eqb (bminy b1) (bminy b2) = true
    ∧ F64.eqb (bmaxx b1) (bmaxx b2) = true
    ∧ F64.eqb (bmaxy b1) (bmaxy b2) = true.
Proof.
  intros Hwf Hi H12 H21 Hlen Hnx Hny.
  assert (cell_has_xy cell1 = true) as Hxy1.
  { apply forallb_cell_has_xy in Hwf. eapply Forall_lookup_1 in Hwf; eauto. }
  pose proof (has_xy_subseteq _ _ H21 Hxy1) as Hxy2.
  pose proof (coords_of_subseteq "x" _ _ H12) as Hx12.
  pose proof (coords_of_subseteq "y" _ _ H12) as Hy12.
  pose proof (coords_of_subseteq "x" _ _ H21) as Hx21.
  pose proof (coords_of_subseteq "y" _ _ H21) as Hy21.
  assert (no_nan (row_xs cell2) = true) as Hnx2
    by (eapply no_nan_subseteq; eauto).
  assert (no_nan (row_ys cell2) = true) as Hny2
    by (eapply no_nan_subseteq; eauto).
  destruct (bbox_grows_with_vertices_aux cells i cell1 cell2)
    as (out1 & b1 & out2 & b2 & Hout1 & Hr1 & Hout2 & Hr2 & Hb1 & Hb2);
    try done.
  exists out1, b1, out2, b2. do 4 (split; [done|]).
  assert (0 < length (cell_vertices cell2)) as Hlen2.
  { destruct (cell_vertices cell1) as [|d vs] eqn:E; [simpl in Hlen; lia|].
    assert (d ∈ cell_vertices cell2) as Hd by apply H12, list_elem_of_here.
    destruct (cell_vertices cell2); [by apply elem_of_nil in Hd|].
    simpl. lia. }
  destruct (row_bbox_tight _ Hxy1 Hlen) as (b & Hb & F1 & F2 & F3 & F4).
  assert (b = b1) as -> by congruence.
  destruct (row_bbox_tight _ Hxy2 Hlen2) as (b & Hb' & G1 & G2 & G3 & G4).
  assert (b = b2) as -> by congruence.
  rewrite !eqb_leb.
  repeat split;
    first [ by apply (min_subseteq (row_xs cell2) (row_xs cell1))
          | by apply (min_subseteq (row_xs cell1) (row_xs cell2))
          | by apply (min_subseteq (row_ys cell2) (row_ys cell1))
          | by apply (min_subseteq (row_ys cell1) (row_ys cell2))
          | by apply (max_subseteq (row_xs cell1) (row_xs cell2))
          | by apply (max_subseteq (row_xs cell2) (row_xs cell1))
          | by apply (max_subseteq (row_ys cell1) (row_ys cell2))
          | by apply (max_subseteq (row_ys cell2) (row_ys cell1)) ].
Qed.

End numeric_equality.

Lemma same_vertices_equal_numbers_witness :
  ∃ out1 b1 out2 b2,
    compute_bbox_from_geoarrow_polygon (GeometryCol [zeros_cell]) = Ok out1
    ∧ row_at out1 0 = Some b1
    ∧ compute_bbox_from_geoarrow_polygon
        (GeometryCol (<[0:=zeros_cell_reversed]> [zeros_cell])) = Ok out2
    ∧ row_at out2 0 = Some b2
    ∧ F64.eqb (bminx b1) (bminx b2) = true
    ∧ F64.eqb (bminy b1) (bminy b2) = true
    ∧ F64.eqb (bmaxx b1) (bmaxx b2) = true
    ∧ F64.eqb (bmaxy b1) (bmaxy b2) = true.
Proof.
  apply (same_vertices_equal_numbers [zeros_cell] 0 zeros_cell
           zeros_cell_reversed).
  - vm_compute. reflexivity.
  - reflexivity.
  - apply (bool_decide_unpack _). vm_compute. exact I.
  - apply (bool_decide_unpack _). vm_compute. exact I.
  - vm_compute. lia.
  - vm_compute. reflexivity.
  - vm_compute. reflexivity.
Defined.

(** ** What the augmenter does to the files *)

Section files.

Implicit Types (fs : Files) (t : Table) (inp outp : string).

Lemma add_bbox_columns_missing_input inp outp fs :
  fs !! inp = None →
  add_bbox_columns inp outp fs = (fs, Raise (OSError inp)).
Proof.
  intros H.
  unfold add_bbox_columns, mbind, IO_bind, Arrow.bind, Arrow.read_all.
  by rewrite H.
Qed.

(** The three ways a call ends. *)
Lemma add_bbox_columns_cases inp outp fs :
  (∃ e, add_bbox_columns inp outp fs = (fs, Raise e))
  ∨ (∃ t, fs !! inp = Some t ∧ has_column t "bbox_minx" = true
       ∧ add_bbox_columns inp outp fs = (fs, Ok ()))
  ∨ (∃ t t', fs !! inp = Some t ∧ has_column t "bbox_minx" = false
       ∧ (geom_col ← Arrow.column t "geometry";
          out ← compute_bbox_from_geoarrow_polygon geom_col;
          t1 ← Arrow.append_column t "bbox_minx" (minx out);
          t2 ← Arrow.append_column t1 "bbox_miny" (miny out);
          t3 ← Arrow.append_column t2 "bbox_maxx" (maxx out);
          Arrow.append_column t3 "bbox_maxy" (maxy out)) = Ok t'
       ∧ add_bbox_columns inp outp fs = (<[outp:=t']> fs, Ok ())).
Proof.
  destruct (fs !! inp) as [t|] eqn:Hfs.
  - destruct (has_column t "bbox_minx") eqn:Hg.
    + right. left. exists t. split; [done|]. split; [done|].
      by eapply add_bbox_columns_guarded.
    + rewrite (add_bbox_columns_unguarded _ _ _ _ Hfs Hg).
      destruct (_ ≫= _) as [t'|e] eqn:E; [|by eauto].
      right. right. by exists t, t'.
  - left. rewrite add_bbox_columns_missing_input by done. eauto.
Qed.

(** X9. A call that ends in an exception, whichever it is, leaves every
    file as it was: the one write is the last thing the function does. *)
Theorem exception_leaves_files inp outp fs e :
  (add_bbox_columns inp outp fs).2 = Raise e →
  (add_bbox_columns inp outp fs).1 = fs.
Proof.
  destruct (add_bbox_columns_cases inp outp fs)
    as [[e' ->]|[(t & _ & _ & ->)|(t & t' & _ & _ & _ & ->)]]; done.
Qed.

(** X10. A call never changes a file other than the one at the output
    path; with an output path different from the input path the input
    file is kept. *)
Theorem writes_only_output inp outp fs (q : string) :
  q ≠ outp →
  (add_bbox_columns inp outp fs).1 !! q = fs !! q.
Proof.
  intros Hq.
  destruct (add_bbox_columns_cases inp outp fs)
    as [[e' ->]|[(t & _ & _ & ->)|(t & t' & _ & _ & _ & ->)]]; try done.
  simpl. by rewrite lookup_insert_ne.
Qed.

(** Four appends that succeed give [with_bbox], and each array has one
    value per row. *)
Lemma append_four_inv t out t' :
  (t1 ← Arrow.append_column t "bbox_minx" (minx out);
   t2 ← Arrow.append_column t1 "bbox_miny" (miny out);
   t3 ← Arrow.append_column t2 "bbox_maxx" (maxx out);
   Arrow.append_column t3 "bbox_maxy" (maxy out)) = Ok t' →
  t' = with_bbox t out
  ∧ length (minx out) = Arrow.num_rows t
  ∧ length (miny out) = Arrow.num_rows t
  ∧ length (maxx out) = Arrow.num_rows t
  ∧ length (maxy out) = Arrow.num_rows t.
Proof.
  intros H. pose proof H as H0.
  assert (length (minx out) = Arrow.num_rows t) as H1.
  { apply bind_inv_Ok in H as (t1 & H & _).
    unfold Arrow.append_column in H. by case_decide. }
  rewrite (append_column_Ok _ _ _ H1), bind_Ok in H.
  assert (length (miny out) = Arrow.num_rows t) as H2.
  { apply bind_inv_Ok in H as (t2 & H & _).
    unfold Arrow.append_column in H. by case_decide. }
  rewrite append_column_Ok, bind_Ok in H by done.
  assert (length (maxx out) = Arrow.num_rows t) as H3.
  { apply bind_inv_Ok in H as (t3 & H & _).
    unfold Arrow.append_column in H. by case_decide. }
  rewrite append_column_Ok, bind_Ok in H by done.
  assert (length (maxy out) = Arrow.num_rows t) as H4.
  { unfold Arrow.append_column in H. by case_decide. }
  split; [|done]. rewrite append_four in H0 by done. congruence.
Qed.

Lemma with_bbox_valid t out :
  table_valid t = true →
  length (minx out) = Arrow.num_rows t →
  length (miny out) = Arrow.num_rows t →
  length (maxx out) = Arrow.num_rows t →
  length (maxy out) = Arrow.num_rows t →
  table_valid (with_bbox t out) = true.
Proof.
  unfold table_valid, with_bbox. simpl. intros Hv H1 H2 H3 H4.
  rewrite forallb_app, Hv. simpl.
  by rewrite H1, H2, H3, H4, Nat.eqb_refl.
Qed.

Lemma written_table_aux inp outp fs fs' t :
  fs !! inp = Some t →
  has_column t "bbox_minx" = false →
  add_bbox_columns inp outp fs = (fs', Ok ()) →
  ∃ geom_col out,
    Arrow.column t "geometry" = Ok geom_col
    ∧ compute_bbox_from_geoarrow_polygon geom_col = Ok out
    ∧ fs' = <[outp:=with_bbox t out]> fs.
Proof.
  intros Hfs Hg. rewrite (add_bbox_columns_unguarded _ _ _ _ Hfs Hg).
  destruct (_ ≫= _) as [t'|e] eqn:E; [|done]. intros [= <-].
  apply bind_inv_Ok in E as (geom_col & Hcol & E).
  apply bind_inv_Ok in E as (out & Hout & E).
  apply append_four_inv in E as (-> & _). by exists geom_col, out.
Qed.

(** X11. A call that writes to a path other than its input path (it
    returned, and the input had no [bbox_minx]) writes the input table
    with every column kept, in order, followed by [bbox_minx],
    [bbox_miny], [bbox_maxx], [bbox_maxy] as computed from the geometry
    column; the row count is kept and each new column has one value per
    row, so a table whose columns all have one value per row stays
    so. *)
Theorem written_table inp outp fs fs' t :
  inp ≠ outp →
  fs !! inp = Some t →
  has_column t "bbox_minx" = false →
  add_bbox_columns inp outp fs = (fs', Ok ()) →
  ∃ geom_col out,
    Arrow.column t "geometry" = Ok geom_col
    ∧ compute_bbox_from_geoarrow_polygon geom_col = Ok out
    ∧ fs' = <[outp:=with_bbox t out]> fs
    ∧ take (length (Arrow.columns t)) (Arrow.columns (with_bbox t out))
      = Arrow.columns t
    ∧ Arrow.column_names (with_bbox t out)
      = Arrow.column_names t ++ bbox_names
    ∧ Arrow.num_rows (with_bbox t out) = Arrow.num_rows t
    ∧ length (minx out) = Arrow.num_rows t
    ∧ length (miny out) = Arrow.num_rows t
    ∧ length (maxx out) = Arrow.num_rows t
    ∧ length (maxy out) = Arrow.num_rows t
    ∧ (table_valid t = true → table_valid (with_bbox t out) = true).
Proof.
  intros _ Hfs Hg. rewrite (add_bbox_columns_unguarded _ _ _ _ Hfs Hg).
  destruct (_ ≫= _) as [t'|e] eqn:E; [|done]. intros [= <-].
  apply bind_inv_Ok in E as (geom_col & Hcol & E).
  apply bind_inv_Ok in E as (out & Hout & E).
  apply append_four_inv in E as (-> & H1 & H2 & H3 & H4).
  exists geom_col, out. repeat split; try done.
  - unfold with_bbox. simpl. by rewrite take_app_length.
  - unfold with_bbox, Arrow.column_names. simpl. by rewrite fmap_app.
  - intros Hv. by apply with_bbox_valid.
Qed.

Lemma column_absent t name :
  has_column t name = false →
  filter (λ nc : string * Column, nc.1 = name) (Arrow.columns t) = [].
Proof.
  intros H%bool_decide_eq_false. apply elem_of_nil_inv.
  intros [n c] [Hn Hin]%list_elem_of_filter. simpl in Hn. subst n.
  apply H. unfold Arrow.column_names. apply list_elem_of_fmap.
  by exists (name, c).
Qed.

(** X12. After a call that writes to a path other than its input path,
    on an input that had none of the four bbox names, each bbox column
    is found again by its name in the written table and holds the array
    computed for it, and every name of the input table still denotes
    the column it denoted. *)
Theorem bbox_columns_found_again inp outp fs fs' t :
  inp ≠ outp →
  fs !! inp = Some t →
  forallb (λ name, negb (has_column t name)) bbox_names = true →
  add_bbox_columns inp outp fs = (fs', Ok ()) →
  ∃ out t',
    (Arrow.column t "geometry" ≫= compute_bbox_from_geoarrow_polygon) = Ok out
    ∧ fs' !! outp = Some t'
    ∧ Arrow.column t' "bbox_minx" = Ok (Float64Col (minx out))
    ∧ Arrow.column t' "bbox_miny" = Ok (Float64Col (miny out))
    ∧ Arrow.column t' "bbox_maxx" = Ok (Float64Col (maxx out))
    ∧ Arrow.column t' "bbox_maxy" = Ok (Float64Col (maxy out))
    ∧ ∀ name, name ∉ bbox_names →
        Arrow.column t' name = Arrow.column t name.
Proof.
  intros _ Hfs Hnone Hrun. simpl in Hnone.
  apply andb_true_iff in Hnone as [H1%negb_true_iff Hnone].
  apply andb_true_iff in Hnone as [H2%negb_true_iff Hnone].
  apply andb_true_iff in Hnone as [H3%negb_true_iff Hnone].
  apply andb_true_iff in Hnone as [H4%negb_true_iff _].
  destruct (written_table_aux _ _ _ _ _ Hfs H1 Hrun)
    as (geom_col & out & Hcol & Hout & ->).
  exists out, (with_bbox t out).
  split; [by rewrite Hcol, bind_Ok|].
  split; [apply lookup_insert_eq|].
  unfold Arrow.column, with_bbox. simpl.
  rewrite !filter_app, !column_absent by done.
  do 4 (split; [vm_compute; reflexivity|]).
  intros name Hname. unfold bbox_names in Hname.
  rewrite !elem_of_cons, elem_of_nil in Hname.
  rewrite filter_app, !filter_cons_False, filter_nil, app_nil_r; simpl;
    intuition congruence.
Qed.

End files.

Lemma exception_leaves_files_witness :
  (add_bbox_columns "data/current.arrow" "data/out.arrow"
     {[ "data/current.arrow" := attribute_table ]}).1
  = {[ "data/current.arrow" := attribute_table ]}.
Proof.
  apply (exception_leaves_files _ _ _ (KeyError "geometry")).
  vm_compute. reflexivity.
Defined.

Lemma writes_only_output_witness :
  (add_bbox_columns "data/current.arrow" "data/out.arrow"
     {[ "data/current.arrow" := plain_table ]}).1 !! "data/current.arrow"
  = ({[ "data/current.arrow" := plain_table ]} : Files)
      !! "data/current.arrow".
Proof. apply writes_only_output. discriminate. Defined.

Lemma written_table_witness :
  ∃ geom_col out,
    Arrow.column plain_table "geometry" = Ok geom_col
    ∧ compute_bbox_from_geoarrow_polygon geom_col = Ok out
    ∧ ({[ "data/current.arrow" := plain_table;
           "data/out.arrow" := augmented_table ]} : Files)
      = <["data/out.arrow":=with_bbox plain_table out]>
          {[ "data/current.arrow" := plain_table ]}
    ∧ take (length (Arrow.columns plain_table))
           (Arrow.columns (with_bbox plain_table out))
      = Arrow.columns plain_table
    ∧ Arrow.column_names (with_bbox plain_table out)
      = Arrow.column_names plain_table ++ bbox_names
    ∧ Arrow.num_rows (with_bbox plain_table out) = Arrow.num_rows plain_table
    ∧ length (minx out) = Arrow.num_rows plain_table
    ∧ length (miny out) = Arrow.num_rows plain_table
    ∧ length (maxx out) = Arrow.num_rows plain_table
    ∧ length (maxy out) = Arrow.num_rows plain_table
    ∧ (table_valid plain_table = true →
       table_valid (with_bbox plain_table out) = true).
Proof.
  apply (written_table "data/current.arrow" "data/out.arrow"
           {[ "data/current.arrow" := plain_table ]}).
  - discriminate.
  - reflexivity.
  - vm_compute. reflexivity.
  - apply augment_plain_table_to_output.
Defined.

Lemma bbox_columns_found_again_witness :
  ∃ out t',
    (Arrow.column plain_table "geometry"
       ≫= compute_bbox_from_geoarrow_polygon) = Ok out
    ∧ ({[ "data/current.arrow" := plain_table;
           "data/out.arrow" := augmented_table ]} : Files)
        !! "data/out.arrow" = Some t'
    ∧ Arrow.column t' "bbox_minx" = Ok (Float64Col (minx out))
    ∧ Arrow.column t' "bbox_miny" = Ok (Float64Col (miny out))
    ∧ Arrow.column t' "bbox_maxx" = Ok (Float64Col (maxx out))
    ∧ Arrow.column t' "bbox_maxy" = Ok (Float64Col (maxy out))
    ∧ ∀ name, name ∉ bbox_names →
        Arrow.column t' name = Arrow.column plain_table name.
Proof.
  apply (bbox_columns_found_again "data/current.arrow" "data/out.arrow"
           {[ "data/current.arrow" := plain_table ]}).
  - discriminate.
  - reflexivity.
  - vm_compute. reflexivity.
  - apply augment_plain_table_to_output.
Defined.

(** ** Running twice *)

Section rerun.

Implicit Types (fs : Files) (t : Table) (inp outp : string).



Lemma main_with_paths (argv : list string) :
  2 ≤ length argv →
  ∃ inp outp,
    argv !! 1 = Some inp
    ∧ ∀ fs, AddBBoxToArrow.main argv fs
            = ((add_bbox_columns inp outp fs).1,
               Script.finish (add_bbox_columns inp outp fs).2).
Proof.
  intros Hlen.
  destruct (lookup_lt_is_Some_2 argv 1) as [inp Hinp]; [lia|].
  exists inp. destruct (decide (2 < length argv)) as [H2|H2].
  - destruct (lookup_lt_is_Some_2 argv 2) as [outp Houtp]; [lia|].
    exists outp. split; [done|]. intros fs. unfold AddBBoxToArrow.main.
    rewrite decide_False, Hinp, decide_True, Houtp by lia.
    by destruct (add_bbox_columns inp outp fs).
  - exists inp. split; [done|]. intros fs. unfold AddBBoxToArrow.main.
    rewrite decide_False, Hinp, decide_False by lia.
    by destruct (add_bbox_columns inp inp fs).
Qed.

(** X14. With fewer than two entries in [sys.argv] the script leaves
    through [sys.exit] with status 1 and touches no file. With two or
    more it reads [sys.argv[1]], and [sys.argv[2]] when there are more
    than two, both in range, calls [add_bbox_columns] on the first and
    on the second (on the first again when there is no second), and
    ends as that call does: it returns when the call returns, and the
    call's exception reaches the top. So it leaves through [sys.exit]
    exactly when it is given no path. *)
Theorem script_exit_iff_no_path (argv : list string) fs :
  (length argv < 2 → AddBBoxToArrow.main argv fs = (fs, Script.Exited 1))
  ∧ (2 ≤ length argv →
     ∃ inp, argv !! 1 = Some inp
       ∧ (2 < length argv → is_Some (argv !! 2))
       ∧ AddBBoxToArrow.main argv fs
         = ((add_bbox_columns inp (default inp (argv !! 2)) fs).1,
            Script.finish
              (add_bbox_columns inp (default inp (argv !! 2)) fs).2))
  ∧ (∀ fs' status,
       AddBBoxToArrow.main argv fs = (fs', Script.Exited status)
       ↔ length argv < 2 ∧ status = 1 ∧ fs' = fs).
Proof.
  split; [|split].
  - intros Hlt. unfold AddBBoxToArrow.main. by rewrite decide_True.
  - intros Hlen.
    destruct (lookup_lt_is_Some_2 argv 1) as [inp Hinp]; [lia|].
    exists inp. split; [done|]. split; [apply lookup_lt_is_Some_2|].
    unfold AddBBoxToArrow.main. rewrite decide_False, Hinp by lia.
    destruct (decide (2 < length argv)) as [H2|H2].
    + destruct (lookup_lt_is_Some_2 argv 2) as [outp Houtp]; [lia|].
      rewrite Houtp. simpl.
      by destruct (add_bbox_columns inp outp fs).
    + rewrite lookup_ge_None_2 by lia. simpl.
      by destruct (add_bbox_columns inp inp fs).
  - intros fs' status. split.
    + destruct (decide (length argv < 2)) as [Hlt|Hge].
      * unfold AddBBoxToArrow.main. rewrite decide_True by done.
        by intros [= <- <-].
      * destruct (main_with_paths argv) as (inp & outp & _ & ->); [lia|].
        by destruct (add_bbox_columns inp outp fs) as [fs2 [[]|e]].
    + intros (Hlt & -> & ->). unfold AddBBoxToArrow.main.
      by rewrite decide_True.
Qed.


End rerun.



Lemma script_exit_iff_no_path_witness :
  AddBBoxToArrow.main ["add_bbox_to_arrow.py"]
    {[ "data/current.arrow" := plain_table ]}
  = ({[ "data/current.arrow" := plain_table ]}, Script.Exited 1).
Proof.
  apply (proj1 (script_exit_iff_no_path ["add_bbox_to_arrow.py"] _)).
  simpl. lia.
Defined.

Example script_without_path :
  AddBBoxToArrow.main ["add_bbox_to_arrow.py"]
    {[ "data/current.arrow" := plain_table ]}
  = ({[ "data/current.arrow" := plain_table ]}, Script.Exited 1).
Proof. reflexivity. Qed.

Example script_with_output_path :
  AddBBoxToArrow.main
    ["add_bbox_to_arrow.py"; "data/current.arrow"; "data/out.arrow"; "extra"]
    {[ "data/current.arrow" := plain_table ]}
  = ({[ "data/current.arrow" := plain_table;
        "data/out.arrow" := augmented_table ]}, Script.Returned).
Proof. vm_compute. reflexivity. Qed.


(** ** The CSV converter *)

Section csv2parquet.

Context {Content Tbl : Type}.
Context (read_csv : Content → result Tbl) (write_table : Tbl → Content).

Implicit Types (fs : gmap Fs.Path Content) (dd out p : Fs.Path)
  (items : list (string * Csv2Parquet.Info)) (args : Csv2Parquet.Args).

Lemma join_inj (p q : Fs.Path) (a b : string) :
  Fs.join p a = Fs.join q b → p = q ∧ a = b.
Proof. unfold Fs.join. intros H. by apply app_inj_tail in H. Qed.

Lemma convert_files_cons_absent dd out name info items c fs :
  fs !! Fs.join dd name = None →
  Csv2Parquet.convert_files read_csv write_table dd out
    ((name, info) :: items) c fs
  = Csv2Parquet.convert_files read_csv write_table dd out items c fs.
Proof. intros H. simpl. unfold Fs.exists_. by rewrite H. Qed.

Lemma convert_files_cons_present dd out name info items c fs text :
  fs !! Fs.join dd name = Some text →
  Csv2Parquet.convert_files read_csv write_table dd out
    ((name, info) :: items) c fs
  = match read_csv text with
    | Ok table =>
        Csv2Parquet.convert_files read_csv write_table dd out items (c + 1)
          (<[Fs.join out (Csv2Parquet.output info):=write_table table]> fs)
    | Raise e => (fs, Raise e)
    end.
Proof.
  intros H. simpl.
  unfold Fs.exists_, Csv2Parquet.convert_csv_to_parquet, Fs.read.
  rewrite H. simpl. by destruct (read_csv text).
Qed.

(** Nothing is found: nothing is counted and nothing is written. *)
Lemma convert_files_none dd out items c fs :
  (∀ item, item ∈ items → fs !! Fs.join dd item.1 = None) →
  Csv2Parquet.convert_files read_csv write_table dd out items c fs
  = (fs, Ok c).
Proof.
  induction items as [|[name info] items IH]; intros H; [done|].
  rewrite convert_files_cons_absent.
  - apply IH. intros item Hitem. by apply H, list_elem_of_further.
  - apply (H (name, info)), list_elem_of_here.
Qed.

(** The counter counts the files found. *)
Lemma convert_files_count dd out items : ∀ c fs fs' n,
  Csv2Parquet.convert_files read_csv write_table dd out items c fs
  = (fs', Ok n) →
  c ≤ n
  ∧ (n = c → fs' = fs ∧ ∀ item, item ∈ items → fs !! Fs.join dd item.1 = None).
Proof.
  induction items as [|[name info] items IH]; intros c fs fs' n H.
  - injection H as <- <-. split; [done|]. intros _. split; [done|].
    by intros item ?%elem_of_nil.
  - destruct (fs !! Fs.join dd name) as [text|] eqn:Hf.
    + rewrite (convert_files_cons_present _ _ _ _ _ _ _ _ Hf) in H.
      destruct (read_csv text) as [table|e]; [|done].
      apply IH in H as [Hle _]. split; lia.
    + rewrite (convert_files_cons_absent _ _ _ _ _ _ _ Hf) in H.
      apply IH in H as [Hle Hsame]. split; [done|].
      intros Hn. destruct (Hsame Hn) as [-> Hnone]. split; [done|].
      intros item [->|Hitem]%elem_of_cons; [done | by apply Hnone].
Qed.

(** Only the outputs of the items are written. *)
Lemma convert_files_frame dd out items p : ∀ c fs,
  (∀ item, item ∈ items → p ≠ Fs.join out (Csv2Parquet.output item.2)) →
  (Csv2Parquet.convert_files read_csv write_table dd out items c fs).1 !! p
  = fs !! p.
Proof.
  induction items as [|[name info] items IH]; intros c fs H; [done|].
  assert (∀ item, item ∈ items →
            p ≠ Fs.join out (Csv2Parquet.output item.2)) as H'
    by (intros item Hitem; by apply H, list_elem_of_further).
  destruct (fs !! Fs.join dd name) as [text|] eqn:Hf.
  - rewrite (convert_files_cons_present _ _ _ _ _ _ _ _ Hf).
    destruct (read_csv text) as [table|e]; [|done].
    rewrite IH by done. apply lookup_insert_ne.
    intros E. by apply (H (name, info)); [apply list_elem_of_here|].
  - rewrite (convert_files_cons_absent _ _ _ _ _ _ _ Hf). by apply IH.
Qed.

Lemma main_convert_files args fs :
  Csv2Parquet.main read_csv write_table args fs
  = match Csv2Parquet.convert_files read_csv write_table
            (Csv2Parquet.data_dir args) (target_dir args)
            Csv2Parquet.CSV_FILES 0 fs with
    | (fs', Raise e) => (fs', Script.Uncaught e)
    | (fs', Ok converted) =>
        if decide (converted = 0) then (fs', Script.Exited 1)
        else (fs', Script.Returned)
    end.
Proof.
  unfold Csv2Parquet.main, target_dir. by destruct (Csv2Parquet.output_dir args).
Qed.

(** X16. Once the command line is parsed, [main] leaves through its
    [sys.exit] exactly when none of [current.csv], [reference.csv] and
    [column_metadata.csv] exists in the data directory, and then with
    status 1 and without writing a file. *)
Theorem csv_exit_iff_nothing_found args fs fs' status :
  Csv2Parquet.main read_csv write_table args fs = (fs', Script.Exited status)
  ↔ status = 1 ∧ fs' = fs
    ∧ ∀ item, item ∈ Csv2Parquet.CSV_FILES → fs !! csv_path args item = None.
Proof.
  rewrite main_convert_files. split.
  - destruct (Csv2Parquet.convert_files _ _ _ _ _ _ _) as [fs1 [n|e]] eqn:E;
      [|done].
    case_decide as Hn; [|done]. intros [= <- <-].
    apply convert_files_count in E as [_ Hsame].
    destruct (Hsame Hn) as [-> Hnone]. done.
  - intros (-> & -> & Hnone). by rewrite convert_files_none.
Qed.

(** X17. Whatever happens, the script changes no file but
    [current.parquet], [reference.parquet] and
    [column_Metadata.parquet] in the output directory. *)
Theorem csv_writes_only_outputs args fs p :
  (∀ item, item ∈ Csv2Parquet.CSV_FILES → p ≠ parquet_path args item) →
  (Csv2Parquet.main read_csv write_table args fs).1 !! p = fs !! p.
Proof.
  intros H. rewrite main_convert_files.
  rewrite <- (convert_files_frame (Csv2Parquet.data_dir args)
                (target_dir args) Csv2Parquet.CSV_FILES p 0 fs) by done.
  destruct (Csv2Parquet.convert_files _ _ _ _ _ _ _) as [fs1 [n|e]]; [|done].
  by case_decide.
Qed.

(** X18. The three CSV files are never written to, not even when the
    output directory is the data directory. *)
Theorem csv_inputs_kept args fs item :
  item ∈ Csv2Parquet.CSV_FILES →
  (Csv2Parquet.main read_csv write_table args fs).1 !! csv_path args item
  = fs !! csv_path args item.
Proof.
  intros Hitem. rewrite main_convert_files.
  rewrite <- (convert_files_frame (Csv2Parquet.data_dir args)
                (target_dir args) Csv2Parquet.CSV_FILES
                (csv_path args item) 0 fs).
  - destruct (Csv2Parquet.convert_files _ _ _ _ _ _ _) as [fs1 [n|e]];
      [|done].
    by case_decide.
  - intros item' Hitem' [_ E]%join_inj. revert E.
    unfold Csv2Parquet.CSV_FILES in *.
    repeat (apply elem_of_cons in Hitem as [->|Hitem]);
      repeat (apply elem_of_cons in Hitem' as [->|Hitem']);
      try discriminate;
      try (by apply elem_of_nil in Hitem); by apply elem_of_nil in Hitem'.
Qed.

(** Every file that is found parses: each is converted, in order. *)
Lemma convert_files_all dd out items : ∀ c fs,
  NoDup ((λ item, Csv2Parquet.output item.2) <$> items) →
  (∀ a b, a ∈ items → b ∈ items → a.1 ≠ Csv2Parquet.output b.2) →
  (∀ a text, a ∈ items → fs !! Fs.join dd a.1 = Some text →
     ∃ table, read_csv text = Ok table) →
  ∃ fs' n,
    Csv2Parquet.convert_files read_csv write_table dd out items c fs
    = (fs', Ok n)
    ∧ ∀ a, a ∈ items →
        fs' !! Fs.join out (Csv2Parquet.output a.2)
        = match fs !! Fs.join dd a.1 with
          | Some text => written read_csv write_table text
          | None => fs !! Fs.join out (Csv2Parquet.output a.2)
          end.
Proof.
  induction items as [|[name info] items IH]; intros c fs Hnd Hio Hparse.
  { exists fs, c. split; [done|]. by intros a ?%elem_of_nil. }
  rewrite fmap_cons in Hnd. apply NoDup_cons in Hnd as [Hfresh Hnd].
  assert (∀ a, a ∈ items →
            Fs.join out (Csv2Parquet.output info)
            ≠ Fs.join out (Csv2Parquet.output a.2)) as Hother.
  { intros a Ha [_ E]%join_inj. apply Hfresh. simpl. rewrite E.
    by apply (list_elem_of_fmap_2 (λ item, Csv2Parquet.output item.2)). }
  assert (∀ a b, a ∈ items → b ∈ items → a.1 ≠ Csv2Parquet.output b.2)
    as Hio' by (intros a b Ha Hb;
                apply Hio; by apply list_elem_of_further).
  destruct (fs !! Fs.join dd name) as [text|] eqn:Hf.
  - destruct (Hparse (name, info) text) as [table Htable];
      [apply list_elem_of_here | done |].
    rewrite (convert_files_cons_present _ _ _ _ _ _ _ _ Hf), Htable.
    set (fs1 := <[Fs.join out (Csv2Parquet.output info):=write_table table]> fs).
    assert (∀ a, a ∈ items → fs1 !! Fs.join dd a.1 = fs !! Fs.join dd a.1)
      as Hin.
    { intros a Ha. apply lookup_insert_ne. intros [_ E]%join_inj.
      apply (Hio a (name, info));
        [by apply list_elem_of_further | apply list_elem_of_here | done]. }
    destruct (IH (c + 1) fs1 Hnd Hio') as (fs' & n & Hrun & Hall).
    { intros a text' Ha. rewrite (Hin a Ha). intros Hl.
      apply (Hparse a text'); [by apply list_elem_of_further | done]. }
    exists fs', n. split; [done|].
    intros a [->|Ha]%elem_of_cons.
    + simpl. rewrite Hf. unfold written. rewrite Htable.
      replace fs' with (fs', Ok (A:=nat) n).1 by done. rewrite <- Hrun.
      rewrite convert_files_frame by done. apply lookup_insert_eq.
    + rewrite (Hall a Ha), (Hin a Ha).
      destruct (fs !! Fs.join dd a.1); [done|].
      apply lookup_insert_ne. by apply Hother.
  - rewrite (convert_files_cons_absent _ _ _ _ _ _ _ Hf).
    destruct (IH c fs Hnd Hio') as (fs' & n & Hrun & Hall).
    { intros a text' Ha. apply Hparse. by apply list_elem_of_further. }
    exists fs', n. split; [done|].
    intros a [->|Ha]%elem_of_cons; [|by apply Hall].
    simpl. rewrite Hf. replace fs' with (fs', Ok (A:=nat) n).1 by done.
    rewrite <- Hrun. by rewrite convert_files_frame.
Qed.

(** X19. When every one of the three CSV files that exists parses, the
    script raises nothing, and afterwards each output file holds the
    conversion of its CSV file if that exists and is as it was before
    if not: [column_metadata.csv] goes to [column_Metadata.parquet],
    the others to the file of the same stem, in the output directory,
    or in the data directory when none is given. *)
Theorem csv_converts_what_exists args fs :
  (∀ item text, item ∈ Csv2Parquet.CSV_FILES →
     fs !! csv_path args item = Some text →
     ∃ table, read_csv text = Ok table) →
  ∃ fs',
    (Csv2Parquet.main read_csv write_table args fs = (fs', Script.Returned)
     ∨ Csv2Parquet.main read_csv write_table args fs
       = (fs', Script.Exited 1))
    ∧ ∀ item, item ∈ Csv2Parquet.CSV_FILES →
        fs' !! parquet_path args item
        = match fs !! csv_path args item with
          | Some text => written read_csv write_table text
          | None => fs !! parquet_path args item
          end.
Proof.
  intros Hparse. rewrite main_convert_files.
  destruct (convert_files_all (Csv2Parquet.data_dir args) (target_dir args)
              Csv2Parquet.CSV_FILES 0 fs) as (fs' & n & -> & Hall).
  - apply (bool_decide_unpack _). vm_compute. exact I.
  - intros a b Ha Hb. unfold Csv2Parquet.CSV_FILES in *.
    repeat (apply elem_of_cons in Ha as [->|Ha]);
      repeat (apply elem_of_cons in Hb as [->|Hb]);
      try discriminate;
      try (by apply elem_of_nil in Ha); by apply elem_of_nil in Hb.
  - done.
  - exists fs'. split; [|done]. case_decide; auto.
Qed.

(** X20. A CSV file that does not parse stops the script with the
    parser's exception, after the files before it have been converted
    and written: with [current.csv] in order and [reference.csv]
    broken, [current.parquet] is written and [column_metadata.csv] is
    not looked at. *)
Theorem csv_stops_at_first_failure args fs text1 table1 text2 e :
  fs !! Fs.join (Csv2Parquet.data_dir args) "current.csv" = Some text1 →
  read_csv text1 = Ok table1 →
  fs !! Fs.join (Csv2Parquet.data_dir args) "reference.csv" = Some text2 →
  read_csv text2 = Raise e →
  Csv2Parquet.main read_csv write_table args fs
  = (<[Fs.join (target_dir args) "current.parquet":=write_table table1]> fs,
     Script.Uncaught e).
Proof.
  intros H1 Ht1 H2 Ht2.
  rewrite main_convert_files. unfold Csv2Parquet.CSV_FILES.
  rewrite (convert_files_cons_present _ _ _ _ _ _ _ _ H1), Ht1.
  rewrite (convert_files_cons_present _ _ _ _ _ _ _ text2), Ht2; [done|].
  rewrite lookup_insert_ne; [done|]. by intros [_ ?]%join_inj.
Qed.

End csv2parquet.

Lemma csv_exit_iff_nothing_found_example :
  Csv2Parquet.main toy_read toy_write toy_args
    {[ ["data"; "notes.txt"] := "keep" ]}
  = ({[ ["data"; "notes.txt"] := "keep" ]}, Script.Exited 1).
Proof. vm_compute. reflexivity. Qed.

Lemma csv_writes_only_outputs_witness :
  (Csv2Parquet.main toy_read toy_write toy_args toy_files).1
    !! ["data"; "notes.txt"]
  = toy_files !! ["data"; "notes.txt"].
Proof.
  apply csv_writes_only_outputs. intros item Hitem.
  unfold Csv2Parquet.CSV_FILES in Hitem.
  repeat (apply elem_of_cons in Hitem as [->|Hitem]); try discriminate;
    try (by apply elem_of_nil in Hitem).
Defined.

Lemma csv_inputs_kept_witness :
  (Csv2Parquet.main toy_read toy_write
     (Csv2Parquet.mkArgs ["data"] None) toy_files).1
    !! ["data"; "current.csv"]
  = toy_files !! ["data"; "current.csv"].
Proof.
  apply (csv_inputs_kept toy_read toy_write
           (Csv2Parquet.mkArgs ["data"] None) toy_files
           ("current.csv",
            Csv2Parquet.mkInfo "Current scenario catchment landscape data"
                               "current.parquet")).
  apply list_elem_of_here.
Defined.

Lemma csv_converts_what_exists_witness :
  ∃ fs',
    (Csv2Parquet.main toy_read toy_write toy_args toy_files
     = (fs', Script.Returned)
     ∨ Csv2Parquet.main toy_read toy_write toy_args toy_files
       = (fs', Script.Exited 1))
    ∧ ∀ item, item ∈ Csv2Parquet.CSV_FILES →
        fs' !! parquet_path toy_args item
        = match toy_files !! csv_path toy_args item with
          | Some text => written toy_read toy_write text
          | None => toy_files !! parquet_path toy_args item
          end.
Proof.
  apply csv_converts_what_exists. intros item text Hitem.
  unfold Csv2Parquet.CSV_FILES in Hitem.
  repeat (apply elem_of_cons in Hitem as [->|Hitem]);
    [| | |by apply elem_of_nil in Hitem];
    vm_compute; intros [= <-]; eauto.
Defined.

Example csv_toy_run :
  Csv2Parquet.main toy_read toy_write toy_args toy_files
  = (<[ ["out"; "column_Metadata.parquet"] := "name,unit" ]>
       (<[ ["out"; "current.parquet"] := "catchID,a" ]> toy_files),
     Script.Returned).
Proof. vm_compute. reflexivity. Qed.

Lemma csv_stops_at_first_failure_witness :
  Csv2Parquet.main toy_read toy_write toy_args toy_files_broken
  = (<[Fs.join (target_dir toy_args) "current.parquet"
       :=toy_write ["catchID,a"]]> toy_files_broken,
     Script.Uncaught ArrowInvalid).
Proof.
  apply (csv_stops_at_first_failure toy_read toy_write toy_args
           toy_files_broken "catchID,a" ["catchID,a"] "" ArrowInvalid);
    reflexivity.
Defined.

(** ** The GeoParquet converter *)

Section geoparquet_to_arrow.

Context {Content Tbl : Type}.
Context (read_parquet : Content → result Tbl) (write_ipc : Tbl → Content).

Implicit Types (fs : gmap Fs.Path Content) (root dd p : Fs.Path).

Lemma convert_names_cons_absent dd name names fs :
  fs !! Fs.join dd (name +:+ ".geoarrow") = None →
  GeoparquetToArrow.convert_names read_parquet write_ipc dd (name :: names) fs
  = GeoparquetToArrow.convert_names read_parquet write_ipc dd names fs.
Proof. intros H. simpl. unfold Fs.exists_. by rewrite H. Qed.

Lemma convert_names_cons_present dd name names fs bytes :
  fs !! Fs.join dd (name +:+ ".geoarrow") = Some bytes →
  GeoparquetToArrow.convert_names read_parquet write_ipc dd (name :: names) fs
  = match read_parquet bytes with
    | Ok table =>
        GeoparquetToArrow.convert_names read_parquet write_ipc dd names
          (<[Fs.join dd (name +:+ ".arrow"):=write_ipc table]> fs)
    | Raise e => (fs, Raise e)
    end.
Proof.
  intros H. simpl. unfold Fs.exists_, GeoparquetToArrow.convert, Fs.read.
  rewrite H. simpl. by destruct (read_parquet bytes).
Qed.

(** Lookups after the writes of the script. *)
Ltac geo_lookup :=
  repeat first
    [ rewrite lookup_insert_eq
    | rewrite lookup_insert_ne by (by intros [_ ?]%join_inj) ];
  done.

(** X21. When each of [reference.geoarrow] and [current.geoarrow] that
    exists in the data directory converts, the script returns, also
    when neither exists; afterwards [reference.arrow] and
    [current.arrow] each hold the conversion of their source if that
    exists and are as they were if not, and no other file has changed. *)
Theorem geo_converts_what_exists root fs :
  (∀ name bytes, name ∈ ["reference"; "current"] →
     fs !! geoarrow_path root name = Some bytes →
     ∃ table, read_parquet bytes = Ok table) →
  ∃ fs',
    GeoparquetToArrow.main read_parquet write_ipc root fs
    = (fs', Script.Returned)
    ∧ (∀ name, name ∈ ["reference"; "current"] →
         fs' !! arrow_path root name
         = match fs !! geoarrow_path root name with
           | Some bytes => written read_parquet write_ipc bytes
           | None => fs !! arrow_path root name
           end)
    ∧ ∀ p, p ≠ arrow_path root "reference" → p ≠ arrow_path root "current" →
        fs' !! p = fs !! p.
Proof.
  intros Hparse. unfold GeoparquetToArrow.main, geoarrow_path, arrow_path in *.
  set (dd := Fs.join root "data") in *.
  pose proof (Hparse "reference") as Hr. pose proof (Hparse "current") as Hc.
  destruct (fs !! Fs.join dd ("reference" +:+ ".geoarrow")) as [b1|] eqn:H1.
  - destruct (Hr b1) as [t1 Ht1];
      [apply list_elem_of_here | done |].
    rewrite (convert_names_cons_present _ _ _ _ _ H1), Ht1.
    set (fs1 := <[Fs.join dd ("reference" +:+ ".arrow"):=write_ipc t1]> fs).
    assert (fs1 !! Fs.join dd ("current" +:+ ".geoarrow")
            = fs !! Fs.join dd ("current" +:+ ".geoarrow")) as E
      by (apply lookup_insert_ne; by intros [_ ?]%join_inj).
    destruct (fs !! Fs.join dd ("current" +:+ ".geoarrow")) as [b2|] eqn:H2.
    + destruct (Hc b2) as [t2 Ht2];
        [apply list_elem_of_further, list_elem_of_here | done |].
      rewrite (convert_names_cons_present _ _ _ _ _ E), Ht2. simpl.
      eexists. split; [done|]. split.
      * intros name [->|[->|?%elem_of_nil]%elem_of_cons]%elem_of_cons;
          [rewrite H1|rewrite H2|done]; unfold written, fs1;
          rewrite ?Ht1, ?Ht2; geo_lookup.
      * intros p Hp1 Hp2. unfold fs1. by rewrite !lookup_insert_ne.
    + rewrite (convert_names_cons_absent _ _ _ _ E). simpl.
      eexists. split; [done|]. split.
      * intros name [->|[->|?%elem_of_nil]%elem_of_cons]%elem_of_cons;
          [rewrite H1|rewrite H2|done]; unfold written, fs1;
          rewrite ?Ht1; geo_lookup.
      * intros p Hp1 Hp2. unfold fs1. by rewrite lookup_insert_ne.
  - rewrite (convert_names_cons_absent _ _ _ _ H1).
    destruct (fs !! Fs.join dd ("current" +:+ ".geoarrow")) as [b2|] eqn:H2.
    + destruct (Hc b2) as [t2 Ht2];
        [apply list_elem_of_further, list_elem_of_here | done |].
      rewrite (convert_names_cons_present _ _ _ _ _ H2), Ht2. simpl.
      eexists. split; [done|]. split.
      * intros name [->|[->|?%elem_of_nil]%elem_of_cons]%elem_of_cons;
          [rewrite H1|rewrite H2|done]; unfold written;
          rewrite ?Ht2; geo_lookup.
      * intros p Hp1 Hp2. by rewrite lookup_insert_ne.
    + rewrite (convert_names_cons_absent _ _ _ _ H2). simpl.
      eexists. split; [done|]. split; [|done].
      by intros name [->|[->|?%elem_of_nil]%elem_of_cons]%elem_of_cons;
        [rewrite H1|rewrite H2|].
Qed.

(** X22. [reference.geoarrow] is converted first: when it exists and
    does not convert, the script stops with that exception, nothing has
    been written, and [current.geoarrow] is not looked at. *)
Theorem geo_stops_at_first_failure root fs bytes e :
  fs !! geoarrow_path root "reference" = Some bytes →
  read_parquet bytes = Raise e →
  GeoparquetToArrow.main read_parquet write_ipc root fs
  = (fs, Script.Uncaught e).
Proof.
  unfold geoarrow_path, GeoparquetToArrow.main. intros H Hb.
  by rewrite (convert_names_cons_present _ _ _ _ _ H), Hb.
Qed.

End geoparquet_to_arrow.

Lemma geo_converts_what_exists_witness :
  ∃ fs',
    GeoparquetToArrow.main toy_read toy_write ["repo"] toy_geo_files
    = (fs', Script.Returned)
    ∧ (∀ name, name ∈ ["reference"; "current"] →
         fs' !! arrow_path ["repo"] name
         = match toy_geo_files !! geoarrow_path ["repo"] name with
           | Some bytes => written toy_read toy_write bytes
           | None => toy_geo_files !! arrow_path ["repo"] name
           end)
    ∧ ∀ p, p ≠ arrow_path ["repo"] "reference" →
           p ≠ arrow_path ["repo"] "current" →
           fs' !! p = toy_geo_files !! p.
Proof.
  apply geo_converts_what_exists. intros name bytes Hname.
  repeat (apply elem_of_cons in Hname as [->|Hname]);
    [| |by apply elem_of_nil in Hname];
    vm_compute; intros [= <-]; eauto.
Defined.

Lemma geo_stops_at_first_failure_witness :
  GeoparquetToArrow.main toy_read toy_write ["repo"] toy_geo_files_broken
  = (toy_geo_files_broken, Script.Uncaught ArrowInvalid).
Proof.
  apply (geo_stops_at_first_failure toy_read toy_write ["repo"]
           toy_geo_files_broken "" ArrowInvalid); reflexivity.
Defined.

Example geo_toy_run :
  GeoparquetToArrow.main toy_read toy_write ["repo"] toy_geo_files
  = (<[ ["repo"; "data"; "current.arrow"] := "wkb" ]> toy_geo_files,
     Script.Returned).
Proof. vm_compute. reflexivity. Qed.
